(** * A technical-analysis signal engine: indicators, signal generation,
      timeframe combination, synthetic data and the route handler.

    Shallow embedding of [pages/api/market-data.ts] (the API route with
    [calculateSMA], [calculateRSI], [calculateMomentum], [generateSignal],
    [combineSignals], [generateSyntheticData] and [handler] with its
    recommendation text).

    JavaScript numbers are IEEE 754 binary64 values: they are modelled by
    Rocq's primitive [float], whose operations are the machine operations
    and whose specification ([FloatAxioms]) is given over [spec_float].
    [Math.random] and [Date.now] are inputs of the model. *)

From Stdlib Require Import String Ascii ZArith List Bool Lia Lqa QArith Qpower.
From Stdlib Require Import Floats.
Import ListNotations.

Set Warnings "-inexact-float".

Local Open Scope float_scope.

(** ** JavaScript values and built-ins used by the route *)

Module JS.

(** A value that is a number or [undefined] (an out-of-range array read). *)
Definition value := option float.

(** [ToNumber]: [undefined] becomes [NaN]. *)
Definition toNumber (v : value) : float :=
  match v with
  | Some x => x
  | None => nan
  end.

(** [arr[i]]: [undefined] when [i] is negative or past the end. *)
Definition index (arr : list float) (i : Z) : value :=
  if (i <? 0)%Z then None else nth_error arr (Z.to_nat i).

(** [arr.length] as an integer. *)
Definition len {A : Type} (arr : list A) : Z := Z.of_nat (length arr).

(** [v || d] on numbers: [undefined], [NaN], [+0] and [-0] are falsy. *)
Definition or_else (v : value) (d : float) : float :=
  match v with
  | Some x => if is_nan x || is_zero x then d else x
  | None => d
  end.

(** [arr.slice(-n)] for a natural number [n]: the last [n] elements, the
    whole array when [n] exceeds the length, and the whole array when
    [n = 0] (as [-0] is the start index [0]). *)
Definition slice_last {A : Type} (n : nat) (arr : list A) : list A :=
  if (n =? 0)%nat then arr else skipn (length arr - n) arr.

(** [arr.reduce((a, b) => a + b, 0)]. *)
Definition sum (arr : list float) : float :=
  fold_left (fun a b => a + b) arr 0.

(** A natural number (a period, a length) as a JavaScript number. *)
Definition of_nat (n : nat) : float :=
  of_uint63 (Uint63.of_Z (Z.of_nat n)).

(** [a > b] and [a < b]; both are [false] when an operand is [NaN]. *)
Definition gt (a b : float) : bool := b <? a.
Definition lt (a b : float) : bool := a <? b.

(** [a === b] on numbers. *)
Definition strict_eq (a b : float) : bool := a =? b.

(** [Math.min(a, b)]: [NaN] if an operand is [NaN]; [-0] is below [+0]. *)
Definition Math_min (a b : float) : float :=
  if is_nan a || is_nan b then nan
  else if a <? b then a
  else if b <? a then b
  else if get_sign a then a else b.

(** [Math.round] on the specification side: [NaN], the infinities, the
    zeros and integral values are returned unchanged; any other [x]
    becomes [floor (x + 1/2)], computed exactly (the nearest integer, ties
    towards +infinity), a zero result keeping the sign of [x]. *)
Definition SFround (x : spec_float) : spec_float :=
  match x with
  | S754_finite s m e =>
      if (0 <=? e)%Z then x
      else
        binary_normalize prec emax
          ((2 * cond_Zopp s (Zpos m) + 2 ^ (- e)) / 2 ^ (1 - e))%Z 0 s
  | _ => x
  end.

(** [Math.round(x)]. *)
Definition Math_round (x : float) : float := SF2Prim (SFround (Prim2SF x)).

End JS.

Import JS.

(** ** Data model *)

Record MarketDataPoint := {
  timestamp : float;
  open : float;
  high : float;
  low : float;
  close : float;
  volume : float
}.

Inductive Direction := BUY | SELL | HOLD.

Record Indicators := {
  sma20 : float;
  sma50 : float;
  rsi : float;
  momentum : float
}.

Record TradingSignal := {
  timeframe : string;
  signal : Direction;
  strength : float;
  indicators : Indicators
}.

Record ApiResponse := {
  symbol : string;
  data15m : list MarketDataPoint;
  dataDaily : list MarketDataPoint;
  signals_daily : TradingSignal;
  signals_intraday : TradingSignal;
  signals_combined : TradingSignal;
  recommendation : string
}.

(** What [handler] sends: the 200 response, or the 500 error of its
    [catch] block. *)
Inductive HandlerResult :=
| Ok200 (r : ApiResponse)
| Err500 (error : string).

(** ** Indicator library *)

(** [calculateSMA(data, period)]. *)
Definition calculateSMA (data : list float) (period : nat) : float :=
  if (length data <? period)%nat then or_else (index data (len data - 1)) 0
  else
    let slice := slice_last period data in
    sum slice / of_nat period.

(** The loop of [calculateRSI]: [prices[i] - prices[i - 1]] for
    [i = 1 .. length - 1]. *)
Fixpoint changes (prices : list float) : list float :=
  match prices with
  | a :: (b :: _) as rest => (b - a) :: changes rest
  | _ => []
  end.

(** [calculateRSI(prices, period)]. *)
Definition calculateRSI (prices : list float) (period : nat) : float :=
  if (length prices <? period + 1)%nat then 50
  else
    let changes := changes prices in
    let gains := map (fun c => if gt c 0 then c else 0) (slice_last period changes) in
    let losses := map (fun c => if lt c 0 then - c else 0) (slice_last period changes) in
    let avgGain := sum gains / of_nat period in
    let avgLoss := sum losses / of_nat period in
    if strict_eq avgLoss 0 then 100
    else
      let rs := avgGain / avgLoss in
      100 - (100 / (1 + rs)).

(** [calculateMomentum(prices, period)]. *)
Definition calculateMomentum (prices : list float) (period : nat) : float :=
  if (length prices <? period)%nat then 0
  else
    let latest := toNumber (index prices (len prices - 1)) in
    let past := toNumber (index prices (len prices - Z.of_nat period)) in
    ((latest - past) / past) * 100.

(** ** Signal generator *)

(** The two guards of the trend-following strategy. *)
Definition buyRule (currentPrice sma20 sma50 rsi momentum : float) : bool :=
  gt currentPrice sma20 && gt sma20 sma50 && lt rsi 70 && gt momentum 0.

Definition sellRule (currentPrice sma20 sma50 rsi momentum : float) : bool :=
  lt currentPrice sma20 && lt sma20 sma50 && gt rsi 30 && lt momentum 0.

(** The [if / else if / else] that sets [signal] and [strength]. *)
Definition classify (currentPrice sma20 sma50 rsi momentum : float)
  : Direction * float :=
  if buyRule currentPrice sma20 sma50 rsi momentum then
    (BUY, Math_min 100 ((if lt rsi 30 then 90 else 70)
                        + (if gt momentum 5 then 20 else 10)))
  else if sellRule currentPrice sma20 sma50 rsi momentum then
    (SELL, Math_min 100 ((if gt rsi 70 then 90 else 70)
                         + (if lt momentum (-5) then 20 else 10)))
  else (HOLD, 40).

(** [Math.round(x * 100) / 100]. *)
Definition round2 (x : float) : float := Math_round (x * 100) / 100.

(** [generateSignal(data, timeframe)]. *)
Definition generateSignal (data : list MarketDataPoint) (timeframe : string)
  : TradingSignal :=
  let closes := map close data in
  let sma20 := calculateSMA closes 20 in
  let sma50 := calculateSMA closes 50 in
  let rsi := calculateRSI closes 14 in
  let momentum := calculateMomentum closes 10 in
  let currentPrice := toNumber (index closes (len closes - 1)) in
  let '(signal, strength) := classify currentPrice sma20 sma50 rsi momentum in
  {| timeframe := timeframe;
     signal := signal;
     strength := strength;
     indicators := {| sma20 := round2 sma20;
                      sma50 := round2 sma50;
                      rsi := round2 rsi;
                      momentum := round2 momentum |} |}.

(** ** Signal combiner *)

Definition dailyWeight : float := 0.6.
Definition intradayWeight : float := 0.4.

(** [a === b] on the three direction strings. *)
Definition Direction_eqb (a b : Direction) : bool :=
  match a, b with
  | BUY, BUY | SELL, SELL | HOLD, HOLD => true
  | _, _ => false
  end.

(** [combineSignals(dailySignal, intradaySignal)]. *)
Definition combineSignals (dailySignal intradaySignal : TradingSignal)
  : TradingSignal :=
  let combinedStrength :=
    (strength dailySignal * dailyWeight)
    + (strength intradaySignal * intradayWeight) in
  let signal :=
    if Direction_eqb (signal dailySignal) (signal intradaySignal) then
      signal dailySignal
    else if Direction_eqb (signal dailySignal) BUY
            && negb (Direction_eqb (signal intradaySignal) SELL) then BUY
    else if Direction_eqb (signal dailySignal) SELL
            && negb (Direction_eqb (signal intradaySignal) BUY) then SELL
    else HOLD in
  {| timeframe := "combined";
     signal := signal;
     strength := Math_round combinedStrength;
     indicators := indicators dailySignal |}.

(** ** Recommendation text and response of [handler] *)

Definition Direction_toString (d : Direction) : string :=
  match d with
  | BUY => "BUY"
  | SELL => "SELL"
  | HOLD => "HOLD"
  end.

Section Handler.

(** The conversion of a number inside a template literal
    ([Number::toString]), a built-in the route relies on. *)
Variable Number_toString : float -> string.

Local Open Scope string_scope.

(** The recommendation text built from the three signals. *)
Definition formatRecommendation
    (dailySignal intradaySignal combinedSignal : TradingSignal) : string :=
  match signal combinedSignal with
  | BUY =>
      "Strong "
      ++ (if gt (strength combinedSignal) 80 then "BUY" else "Moderate BUY")
      ++ " signal. Daily trend is "
      ++ Direction_toString (signal dailySignal)
      ++ " with " ++ Number_toString (strength dailySignal)
      ++ "% confidence. 15-min trend shows "
      ++ Direction_toString (signal intradaySignal)
      ++ " with " ++ Number_toString (strength intradaySignal)
      ++ "% confidence."
  | SELL =>
      "Strong "
      ++ (if gt (strength combinedSignal) 80 then "SELL" else "Moderate SELL")
      ++ " signal. Daily trend is "
      ++ Direction_toString (signal dailySignal)
      ++ " with " ++ Number_toString (strength dailySignal)
      ++ "% confidence. 15-min trend shows "
      ++ Direction_toString (signal intradaySignal)
      ++ " with " ++ Number_toString (strength intradaySignal)
      ++ "% confidence."
  | HOLD =>
      "HOLD position. Market conditions are mixed. Daily: "
      ++ Direction_toString (signal dailySignal)
      ++ " (" ++ Number_toString (strength dailySignal)
      ++ "%), 15-min: "
      ++ Direction_toString (signal intradaySignal)
      ++ " (" ++ Number_toString (strength intradaySignal)
      ++ "%). Wait for clearer signals."
  end.

(** The [try] block of [handler] on the two generated series: nothing in
    it throws, so the [catch] branch ([Err500]) is never taken. *)
Definition respond (symbol : string)
    (data15m dataDaily : list MarketDataPoint) : HandlerResult :=
  let dailySignal := generateSignal dataDaily "daily" in
  let intradaySignal := generateSignal data15m "15min" in
  let combinedSignal := combineSignals dailySignal intradaySignal in
  Ok200 {| symbol := symbol;
           data15m := slice_last 50 data15m;
           dataDaily := slice_last 50 dataDaily;
           signals_daily := dailySignal;
           signals_intraday := intradaySignal;
           signals_combined := combinedSignal;
           recommendation :=
             formatRecommendation dailySignal intradaySignal combinedSignal |}.

End Handler.

(** ** Synthetic market data and the route handler *)

Module JSMath.

(** [Math.max(a, b)]: [NaN] if an operand is [NaN]; [+0] is above [-0]. *)
Definition Math_max (a b : float) : float :=
  if is_nan a || is_nan b then nan
  else if a <? b then b
  else if b <? a then a
  else if get_sign a then b else a.

(** [Math.floor] on the specification side: [NaN], the infinities, the
    zeros and integral values are returned unchanged; any other [x]
    becomes the largest integer below it, computed exactly. *)
Definition SFfloor (x : spec_float) : spec_float :=
  match x with
  | S754_finite s m e =>
      if (0 <=? e)%Z then x
      else binary_normalize prec emax
             (cond_Zopp s (Zpos m) / 2 ^ (- e))%Z 0 s
  | _ => x
  end.

(** [Math.floor(x)]. *)
Definition Math_floor (x : float) : float := SF2Prim (SFfloor (Prim2SF x)).

End JSMath.

Import JSMath.

Section Synthetic.

(** [Math.random()] is an input of the model: [random k] is the value its
    [k]-th call returns (counting from 0). The functions below take the
    number of calls made so far and use the calls in the order the code
    makes them. *)
Variable random : nat -> float.

(** One iteration of the loop of [generateSyntheticData], for the counter
    [i], after [k] calls of [Math.random], at the running [price]: the bar
    it pushes and the new running price. It calls [Math.random] four times
    (change, high, low, volume). *)
Definition syntheticStep (now interval : float) (i k : nat) (price : float)
  : MarketDataPoint * float :=
  let timestamp := now - (of_nat i * interval) in
  let volatility := 0.02 in
  let trend := 0.0001 in
  let change := (random k - 0.5) * volatility * price + trend * price in
  let open := price in
  let price := price + change in
  let high := Math_max open price * (1 + random (k + 1) * 0.005) in
  let low := Math_min open price * (1 - random (k + 2) * 0.005) in
  let close := price in
  let volume := Math_floor (1000000 + random (k + 3) * 5000000) in
  ({| timestamp := timestamp;
      open := round2 open;
      high := round2 high;
      low := round2 low;
      close := round2 close;
      volume := volume |},
   price).

(** The loop [for (let i = periods; i >= 0; i--)], from the counter [i]
    down to 0. *)
Fixpoint syntheticLoop (now interval : float) (i k : nat) (price : float)
  : list MarketDataPoint :=
  match i with
  | O => [fst (syntheticStep now interval O k price)]
  | S i' =>
      fst (syntheticStep now interval i k price)
      :: syntheticLoop now interval i' (k + 4)
           (snd (syntheticStep now interval i k price))
  end.

(** [generateSyntheticData(basePrice, periods, interval)], with the clock
    reading [now] of its [Date.now()] and after [k] calls of
    [Math.random]. *)
Definition generateSyntheticData (basePrice : float) (periods : nat)
    (interval : float) (now : float) (k : nat) : list MarketDataPoint :=
  syntheticLoop now interval periods k basePrice.

(** The conversion of a number inside a template literal. *)
Variable Number_toString : float -> string.


End Synthetic.

(** ** Inputs used in the examples *)

(** A bar whose four prices are [c], at time [t]. *)
Definition bar (t c : float) : MarketDataPoint :=
  {| timestamp := t; open := c; high := c; low := c; close := c; volume := 0 |}.

(** Bars with the given closes at times 0, 1, 2, ... *)
Definition barsOf (closes : list float) : list MarketDataPoint :=
  map (fun p => bar (of_nat (fst p)) (snd p))
      (combine (seq 0 (List.length closes)) closes).

(** Fifty bars closing at 100. *)
Definition flatBars : list MarketDataPoint := barsOf (repeat 100 50).

(** A rising zigzag: from 100, alternately up 2 and down 1, 61 closes. *)
Fixpoint zigzag (n : nat) (c : float) (up : bool) : list float :=
  match n with
  | O => []
  | S k => c :: zigzag k (if up then c + 2 else c - 1) (negb up)
  end.

Definition risingBars : list MarketDataPoint := barsOf (zigzag 61 100 true).

(** Timestamps strictly increasing along the series. *)
Fixpoint strictly_increasing (ts : list float) : bool :=
  match ts with
  | a :: (b :: _) as rest => (a <? b) && strictly_increasing rest
  | _ => true
  end.

(** The series the specification calls invalid: empty, or with timestamps
    that are not strictly increasing. *)
Definition invalid_series (data : list MarketDataPoint) : bool :=
  match data with
  | [] => true
  | _ => negb (strictly_increasing (map timestamp data))
  end.

(** ** Notions used to state the properties *)

(** The close [k] positions before the latest one ([k = 0] is the latest
    close itself). *)
Definition stepsBack (prices : list float) (k : Z) : value :=
  index prices (len prices - 1 - k).

(** The momentum rule in the specification's words: on a series of at
    least [period] closes, the percentage change between the latest close
    and the close [period] positions before it. *)
Definition momentum_as_specified (prices : list float) (period : nat) : Prop :=
  (period <= List.length prices)%nat ->
  exists latest past,
    stepsBack prices 0 = Some latest
    /\ stepsBack prices (Z.of_nat period) = Some past
    /\ calculateMomentum prices period = ((latest - past) / past) * 100.

(** The closes 1, 2, ..., 11. *)
Definition oneToEleven : list float := map of_nat (seq 1 11).

(** Signals the route produces: a daily BUY of strength 80 (rising zigzag),
    an intraday HOLD of strength 40 (flat series), and their combination. *)
Definition dailyBuy : TradingSignal := generateSignal risingBars "daily".
Definition intradayHold : TradingSignal := generateSignal flatBars "15min".
Definition combinedBuy : TradingSignal := combineSignals dailyBuy intradayHold.

(** A signal with the given direction and strength, for the combiner. *)
Definition mkSignal (l : string) (d : Direction) (s : float) : TradingSignal :=
  {| timeframe := l; signal := d; strength := s;
     indicators := {| sma20 := 0; sma50 := 0; rsi := 50; momentum := 0 |} |}.

(** Two series with the closes 1, 2, 3: one with increasing timestamps, one
    with its timestamps out of order. *)
Definition orderedBars : list MarketDataPoint :=
  [bar 1 1; bar 2 2; bar 3 3].
Definition unorderedBars : list MarketDataPoint :=
  [bar 3 1; bar 1 2; bar 2 3].

(** The signal of a series too short for any indicator: HOLD at strength
    40 with the fallback indicator values. *)
Definition fallbackSignal (timeframe : string) : TradingSignal :=
  {| timeframe := timeframe; signal := HOLD; strength := 40;
     indicators := {| sma20 := 0; sma50 := 0; rsi := 50; momentum := 0 |} |}.

(** The pipeline rejects a series when [handler] answers with its error. *)
Definition rejected (r : HandlerResult) : Prop :=
  exists error, r = Err500 error.

(** A source of pseudo-random numbers in [0, 1), for the examples. *)
Definition sampleRandom (k : nat) : float := of_nat (Nat.modulo k 10) / 10.


(** ** Values of binary64 numbers, for the bounds on strengths *)

(** The value of a positive finite binary64 number. *)
Definition SFval (m : positive) (e : Z) : Q :=
  (inject_Z (Zpos m) * 2 ^ e)%Q.

(** A zero, or a positive finite number of value at most [u] and exponent
    at most [E]. *)
Definition nonneg_upto (x : spec_float) (u : Q) (E : Z) : Prop :=
  match x with
  | S754_zero _ => True
  | S754_finite false m e => (SFval m e <= u)%Q /\ (e <= E)%Z
  | _ => False
  end.

(** Whether the integer [n] is a binary64 number between 0 and 100. *)
Definition small_integer_ok (n : Z) : bool :=
  let r := binary_normalize prec emax n 0 false in
  valid_binary r
  && SFleb (S754_zero false) r
  && SFleb r (S754_finite false 7036874417766400 (-46)).

(** ** Signs and ranges of binary64 numbers, for the range of the RSI *)





(** * Properties *)

(** ** Facts on binary64 comparison and multiplication *)

Section FloatFacts.

Lemma SFcompare_antisym (x y : spec_float) :
  SFcompare y x = option_map CompOpp (SFcompare x y).
Proof.
  destruct x as [[]|[]| |[] m1 e1], y as [[]|[]| |[] m2 e2];
    simpl; try reflexivity;
    rewrite (Z.compare_antisym e1 e2);
    destruct (e1 ?= e2)%Z; simpl; try reflexivity;
    rewrite (Pos.compare_cont_antisym m1 m2 Eq); simpl;
    try rewrite CompOpp_involutive; reflexivity.
Qed.

Lemma ltb_asym (a b : float) : (a <? b) = true -> (b <? a) = false.
Proof.
  rewrite !ltb_spec. unfold SFltb.
  rewrite (SFcompare_antisym (Prim2SF a) (Prim2SF b)).
  destruct (SFcompare (Prim2SF a) (Prim2SF b)) as [[]|]; simpl; congruence.
Qed.

Lemma ltb_nan_l (a : float) : (nan <? a) = false.
Proof. rewrite ltb_spec. reflexivity. Qed.

Lemma ltb_nan_r (a : float) : (a <? nan) = false.
Proof.
  rewrite ltb_spec. change (Prim2SF nan) with S754_nan.
  unfold SFltb. destruct (Prim2SF a); reflexivity.
Qed.

Lemma SFmul_comm (x y : spec_float) : SF64mul x y = SF64mul y x.
Proof.
  unfold SF64mul.
  destruct x as [sx|sx| |sx mx ex], y as [sy|sy| |sy my ey]; simpl;
    try rewrite (xorb_comm sx sy); try reflexivity.
  now rewrite (Pos.mul_comm mx my), (Z.add_comm ex ey).
Qed.

Lemma mul_comm (a b : float) : a * b = b * a.
Proof. apply Prim2SF_inj. rewrite !mul_spec. apply SFmul_comm. Qed.

End FloatFacts.

(** ** Bounds on binary64 rounding, products and sums *)

Section Binary64Bounds.

Local Open Scope Q_scope.

Lemma pow2_pos (e : Z) : 0 < 2 ^ e.
Proof. now apply Qpower_0_lt. Qed.

Lemma pow2_add (a b : Z) : 2 ^ (a + b) == 2 ^ a * 2 ^ b.
Proof. now apply Qpower_plus. Qed.

Lemma pow2_le (a b : Z) : (a <= b)%Z -> 2 ^ a <= 2 ^ b.
Proof. intros H. now apply Qpower_le_compat_l. Qed.

Lemma pow2_le_inv (a b : Z) : 2 ^ a <= 2 ^ b -> (a <= b)%Z.
Proof. intros H. now apply (Qpower_le_compat_l_inv 2). Qed.

Lemma pow2_inject (n : Z) : (0 <= n)%Z -> inject_Z (2 ^ n) == 2 ^ n.
Proof. intros H. now rewrite Zpower_Qpower. Qed.

Lemma pow2_double (a : Z) : 2 ^ (a + 1) == 2 * 2 ^ a.
Proof. rewrite pow2_add. change (2 ^ 1) with 2. ring. Qed.

Lemma fexp_eq (x : Z) : fexp prec emax x = Z.max (x - 53) (-1074).
Proof. reflexivity. Qed.

Lemma digits2_pos_bounds (m : positive) :
  (2 ^ (Zpos (digits2_pos m) - 1) <= Zpos m < 2 ^ Zpos (digits2_pos m))%Z.
Proof.
  induction m as [m IH|m IH|]; simpl digits2_pos.
  - rewrite Pos2Z.inj_succ.
    replace (Z.succ (Zpos (digits2_pos m)) - 1)%Z
      with (Z.succ (Zpos (digits2_pos m) - 1))%Z by lia.
    rewrite !Z.pow_succ_r by lia. lia.
  - rewrite Pos2Z.inj_succ.
    replace (Z.succ (Zpos (digits2_pos m)) - 1)%Z
      with (Z.succ (Zpos (digits2_pos m) - 1))%Z by lia.
    rewrite !Z.pow_succ_r by lia. lia.
  - simpl. lia.
Qed.

(** A value of at most [2 ^ L] at exponent [e] has at most [L - e + 1]
    binary digits. *)
Lemma digits_of_bound (m : positive) (e L : Z) :
  SFval m e <= 2 ^ L -> (Zpos (digits2_pos m) + e <= L + 1)%Z.
Proof.
  intros H.
  cut (Zpos (digits2_pos m) - 1 + e <= L)%Z; [lia|].
  apply pow2_le_inv. eapply Qle_trans; [|exact H].
  rewrite pow2_add. unfold SFval.
  apply Qmult_le_compat_r; [|apply Qlt_le_weak, pow2_pos].
  rewrite <- pow2_inject by lia.
  rewrite <- Zle_Qle. apply digits2_pos_bounds.
Qed.

Lemma shr_1_m (r : shr_record) :
  (0 <= shr_m r)%Z -> shr_m (shr_1 r) = (shr_m r / 2)%Z.
Proof.
  destruct r as [m b s]; simpl. intros H.
  destruct m as [|[p|p|]|p]; try reflexivity; try lia; cbn [shr_m].
  - rewrite Pos2Z.inj_xI. apply Z.div_unique with 1%Z; lia.
  - rewrite Pos2Z.inj_xO. apply Z.div_unique with 0%Z; lia.
Qed.

Lemma iter_pos_shr_m (p : positive) :
  forall r, (0 <= shr_m r)%Z ->
  (0 <= shr_m (iter_pos shr_1 p r))%Z
  /\ shr_m (iter_pos shr_1 p r) = (shr_m r / 2 ^ Zpos p)%Z.
Proof.
  induction p as [p IH|p IH|]; intros r H; simpl iter_pos.
  - assert (H1 : (0 <= shr_m (shr_1 r))%Z)
      by (rewrite shr_1_m by assumption; apply Z.div_pos; lia).
    destruct (IH _ H1) as [H2 E2]. destruct (IH _ H2) as [H3 E3].
    split; [assumption|].
    rewrite E3, E2, shr_1_m by assumption.
    rewrite !Z.div_div by lia. f_equal.
    rewrite <- Z.pow_add_r by lia. rewrite <- Z.pow_succ_r by lia.
    f_equal. lia.
  - destruct (IH _ H) as [H2 E2]. destruct (IH _ H2) as [H3 E3].
    split; [assumption|].
    rewrite E3, E2. rewrite Z.div_div by lia. f_equal.
    rewrite <- Z.pow_add_r by lia. f_equal. lia.
  - rewrite shr_1_m by assumption. split; [apply Z.div_pos; lia|reflexivity].
Qed.

Lemma shr_record_of_loc_m (m : Z) (l : location) :
  shr_m (shr_record_of_loc m l) = m.
Proof. now destruct l as [|[]]. Qed.

(** Shifting a mantissa to its format exponent never increases the value,
    and the new exponent is the larger of the old one and the format's. *)
Lemma shr_fexp_spec (m e : Z) (l : location) :
  (0 <= m)%Z ->
  (0 <= shr_m (fst (shr_fexp prec emax m e l)))%Z
  /\ inject_Z (shr_m (fst (shr_fexp prec emax m e l)))
       * 2 ^ snd (shr_fexp prec emax m e l) <= inject_Z m * 2 ^ e
  /\ snd (shr_fexp prec emax m e l)
     = Z.max e (fexp prec emax (Zdigits2 m + e)).
Proof.
  intros Hm. unfold shr_fexp, shr.
  destruct (fexp prec emax (Zdigits2 m + e) - e)%Z as [|p|p] eqn:En; simpl.
  - rewrite shr_record_of_loc_m. split; [assumption|]. split; [apply Qle_refl|lia].
  - destruct (iter_pos_shr_m p (shr_record_of_loc m l)) as [H0 E];
      [now rewrite shr_record_of_loc_m|].
    rewrite shr_record_of_loc_m in E.
    split; [assumption|]. split; [|lia].
    rewrite E, pow2_add, <- (pow2_inject (Zpos p)) by lia.
    rewrite (Qmult_comm (2 ^ e)), Qmult_assoc, <- inject_Z_mult.
    apply Qmult_le_compat_r; [|apply Qlt_le_weak, pow2_pos].
    rewrite <- Zle_Qle. rewrite Z.mul_comm. apply Z.mul_div_le. lia.
  - rewrite shr_record_of_loc_m. split; [assumption|]. split; [apply Qle_refl|lia].
Qed.

Lemma round_nearest_even_bounds (m : Z) (l : location) :
  (m <= round_nearest_even m l <= m + 1)%Z.
Proof.
  destruct l as [|[]]; simpl; try lia. destruct (Z.even m); lia.
Qed.

(** Rounding a positive exact value that is at most [2 ^ L] gives a zero
    or a positive finite number, above the exact value by at most
    [2 ^ (L - 52)]. *)
Lemma binary_round_aux_upper (mx : positive) (ex L : Z) :
  (ex <= L - 52)%Z -> (-1074 <= L - 52)%Z -> (L <= 1000)%Z ->
  SFval mx ex <= 2 ^ L ->
  match binary_round_aux prec emax false (Zpos mx) ex loc_Exact with
  | S754_zero s => s = false
  | S754_finite s m e =>
      s = false /\ SFval m e <= SFval mx ex + 2 ^ (L - 52) /\ (e <= L - 51)%Z
  | _ => False
  end.
Proof.
  intros Hex Hmin Hmax Hv. unfold binary_round_aux.
  pose proof (shr_fexp_spec (Zpos mx) ex loc_Exact ltac:(lia)) as (H1 & V1 & X1).
  destruct (shr_fexp prec emax (Zpos mx) ex loc_Exact) as [r1 e1].
  cbn [fst snd] in H1, V1, X1.
  pose proof (round_nearest_even_bounds (shr_m r1) (loc_of_shr_record r1)) as B2.
  set (m2 := round_nearest_even (shr_m r1) (loc_of_shr_record r1)) in *.
  pose proof (shr_fexp_spec m2 e1 loc_Exact ltac:(lia)) as (H3 & V3 & X3).
  destruct (shr_fexp prec emax m2 e1 loc_Exact) as [r3 e3].
  cbn [fst snd] in H3, V3, X3.
  pose proof (digits_of_bound mx ex L Hv) as D1.
  cbn [Zdigits2] in X1. rewrite fexp_eq in X1.
  assert (He1 : (e1 <= L - 52)%Z) by lia.
  pose proof (pow2_le e1 (L - 52) He1) as P1.
  pose proof (pow2_pos e1) as P0.
  pose proof (pow2_le (L - 52) L ltac:(lia)) as P2.
  pose proof (pow2_double L) as P3.
  unfold SFval in *.
  set (t1 := 2 ^ e1) in *. set (tL := 2 ^ L) in *.
  set (tK := 2 ^ (L - 52)) in *. set (tx := 2 ^ ex) in *.
  assert (V2 : inject_Z m2 * t1 <= inject_Z (Zpos mx) * tx + tK).
  { apply Qle_trans with (inject_Z (shr_m r1 + 1) * t1).
    - apply Qmult_le_compat_r; [|lra]. rewrite <- Zle_Qle. lia.
    - rewrite inject_Z_plus. change (inject_Z 1) with 1. lra. }
  assert (He3 : (e3 <= L - 51)%Z).
  { rewrite X3, fexp_eq. destruct m2 as [|p|p]; cbn [Zdigits2]; [lia| |lia].
    assert (Hp : SFval p e1 <= 2 ^ (L + 1)).
    { unfold SFval. fold t1 tL. rewrite P3. lra. }
    pose proof (digits_of_bound p e1 (L + 1) Hp). lia. }
  destruct (shr_m r3) as [|m|m]; [reflexivity| |lia].
  change (emax - prec)%Z with 971%Z.
  destruct (Z.leb_spec e3 971) as [_|Hbig]; [|lia].
  split; [reflexivity|]. split; [|assumption].
  lra.
Qed.

Lemma iter_xO_val (d m : positive) :
  Zpos (Pos.iter xO m d) = (Zpos m * 2 ^ Zpos d)%Z.
Proof.
  induction d as [|d IH] using Pos.peano_ind.
  - simpl. lia.
  - rewrite Pos.iter_succ, Pos2Z.inj_succ, Z.pow_succ_r by lia.
    rewrite Pos2Z.inj_xO, IH. lia.
Qed.

(** Aligning a mantissa to a smaller exponent keeps the value. *)
Lemma shl_align_val (m : positive) (e e' : Z) :
  SFval (fst (shl_align m e e')) (snd (shl_align m e e')) == SFval m e
  /\ (snd (shl_align m e e') <= e)%Z
  /\ ((e' <= e)%Z -> snd (shl_align m e e') = e').
Proof.
  unfold shl_align.
  destruct (e' - e)%Z as [|d|d] eqn:E; cbn [fst snd];
    try (split; [reflexivity|split; lia]).
  split; [|split; lia].
  assert (He : e = (Zpos d + e')%Z) by lia. clear E. subst e.
  unfold SFval. rewrite iter_xO_val, inject_Z_mult, pow2_inject by lia.
  rewrite (pow2_add (Zpos d) e'). ring.
Qed.

Lemma SFval_pos (m : positive) (e : Z) : 0 < SFval m e.
Proof.
  unfold SFval. apply Qmult_lt_0_compat; [|apply pow2_pos].
  change 0 with (inject_Z 0). rewrite <- Zlt_Qlt. lia.
Qed.

Lemma SFval_mul (m1 m2 : positive) (e1 e2 : Z) :
  SFval (m1 * m2) (e1 + e2) == SFval m1 e1 * SFval m2 e2.
Proof.
  unfold SFval. rewrite Pos2Z.inj_mul, inject_Z_mult, pow2_add. ring.
Qed.

Lemma SFval_add (m1 m2 : positive) (e : Z) :
  SFval (m1 + m2) e == SFval m1 e + SFval m2 e.
Proof. unfold SFval. rewrite Pos2Z.inj_add, inject_Z_plus. ring. Qed.

Lemma SFval_lt_pow (m : positive) (e k : Z) :
  (0 <= k)%Z -> (Zpos m < 2 ^ k)%Z -> SFval m e <= 2 ^ (k + e).
Proof.
  intros Hk H. unfold SFval.
  rewrite (pow2_add k e), <- (pow2_inject k) by lia.
  apply Qmult_le_compat_r; [|apply Qlt_le_weak, pow2_pos].
  rewrite <- Zle_Qle. lia.
Qed.

Lemma valid_digits (s : bool) (m : positive) (e : Z) :
  valid_binary (S754_finite s m e) = true -> (Zpos m < 2 ^ 53)%Z.
Proof.
  cbn [SpecFloat.valid_binary]. unfold bounded, canonical_mantissa.
  rewrite fexp_eq. intros H. apply andb_prop in H as [H _].
  apply Z.eqb_eq in H.
  pose proof (digits2_pos_bounds m) as [_ D].
  eapply Z.lt_le_trans; [exact D|]. apply Z.pow_le_mono_r; lia.
Qed.

(** A number between 0 and 100. *)
Lemma between_0_100 (d : float) :
  (0 <=? d)%float = true -> (d <=? 100)%float = true ->
  nonneg_upto (Prim2SF d) 100 (-46).
Proof.
  rewrite !leb_spec. pose proof (Prim2SF_valid d) as V.
  change (Prim2SF 0) with (S754_zero false).
  change (Prim2SF 100) with (S754_finite false 7036874417766400 (-46)).
  destruct (Prim2SF d) as [s|s| |s m e]; cbn [nonneg_upto].
  - trivial.
  - destruct s; intros H1 H2; discriminate.
  - intros H1; discriminate.
  - destruct s; [intros H1; discriminate|]. intros _.
    unfold SFleb, SFcompare.
    pose proof (valid_digits _ _ _ V) as D.
    destruct (Z.compare_spec e (-46)) as [->|Hlt|Hgt].
    + rewrite Pos.compare_cont_spec. cbn [Pos.switch_Eq].
      intros H. split; [|lia].
      assert (Hm : (m <= 7036874417766400)%positive).
      { unfold Pos.le. intros G. rewrite G in H. discriminate H. }
      apply Qle_trans with (SFval 7036874417766400 (-46)).
      * unfold SFval. apply Qmult_le_compat_r; [|apply Qlt_le_weak, pow2_pos].
        rewrite <- (Zle_Qle (Zpos m) (Zpos 7036874417766400)).
        exact Hm.
      * vm_compute. discriminate.
    + intros _. split; [|lia].
      apply Qle_trans with (2 ^ (53 + e)); [apply SFval_lt_pow; lia|].
      apply Qle_trans with (2 ^ 6); [apply pow2_le; lia|].
      vm_compute. discriminate.
    + intros H; discriminate H.
Qed.

Lemma nonneg_upto_weaken (x : spec_float) (u u' : Q) (E E' : Z) :
  nonneg_upto x u E -> u <= u' -> (E <= E')%Z -> nonneg_upto x u' E'.
Proof.
  destruct x as [s|s| |[] m e]; cbn [nonneg_upto]; try tauto.
  intros [H1 H2] Hu HE. split; [eapply Qle_trans; eassumption|lia].
Qed.

(** The product of such a number with a positive constant. *)
Lemma SFmul_upper (x : spec_float) (mc : positive) (ec : Z)
    (u : Q) (E L : Z) :
  nonneg_upto x u E ->
  (E + ec <= L - 52)%Z -> (-1074 <= L - 52)%Z -> (L <= 1000)%Z ->
  u * SFval mc ec <= 2 ^ L ->
  nonneg_upto (SF64mul x (S754_finite false mc ec))
              (u * SFval mc ec + 2 ^ (L - 52)) (L - 51).
Proof.
  intros Hx HE Hmin Hmax Hu.
  destruct x as [s|s| |[] m e]; cbn [nonneg_upto] in Hx;
    [exact I|contradiction|contradiction|contradiction|].
  destruct Hx as [Hv He]. unfold SF64mul, SFmul. cbn [xorb].
  {
    assert (Hp : SFval (m * mc) (e + ec) <= u * SFval mc ec).
    { rewrite SFval_mul. apply Qmult_le_compat_r; [assumption|].
      apply Qlt_le_weak, SFval_pos. }
    pose proof (binary_round_aux_upper (m * mc) (e + ec) L
                  ltac:(lia) Hmin Hmax (Qle_trans _ _ _ Hp Hu)) as R.
    destruct (binary_round_aux prec emax false (Zpos (m * mc)) (e + ec) loc_Exact)
      as [s|s| |s m' e']; cbn [nonneg_upto]; try tauto.
    destruct R as (-> & R1 & R2). split; [|assumption].
    eapply Qle_trans; [exact R1|]. lra. }
Qed.

(** The sum of two such numbers. *)
Lemma SFadd_upper (x y : spec_float) (ux uy : Q) (E L : Z) :
  nonneg_upto x ux E -> nonneg_upto y uy E ->
  0 <= ux -> 0 <= uy ->
  (E <= L - 52)%Z -> (-1074 <= L - 52)%Z -> (L <= 1000)%Z ->
  ux + uy <= 2 ^ L ->
  nonneg_upto (SF64add x y) (ux + uy + 2 ^ (L - 52)) (L - 51).
Proof.
  intros Hx Hy Hux Huy HE Hmin Hmax Hu.
  pose proof (pow2_pos (L - 52)) as P.
  destruct x as [sx|sx| |[] mx ex]; cbn [nonneg_upto] in Hx; try tauto;
    destruct y as [sy|sy| |[] my ey]; cbn [nonneg_upto] in Hy; try tauto.
  - destruct sx, sy; exact I.
  - cbn. destruct Hy as [Hv He]. split; [lra|lia].
  - cbn. destruct Hx as [Hv He]. split; [lra|lia].
  - destruct Hx as [Hvx Hex], Hy as [Hvy Hey].
    unfold SF64add, SFadd. cbn [cond_Zopp].
    set (ez := Z.min ex ey).
    destruct (shl_align_val mx ex ez) as (Vx & _ & Sx).
    destruct (shl_align_val my ey ez) as (Vy & _ & Sy).
    rewrite Sx in Vx by (unfold ez; lia). rewrite Sy in Vy by (unfold ez; lia).
    set (ax := fst (shl_align mx ex ez)) in *.
    set (ay := fst (shl_align my ey ez)) in *.
    change (Zpos ax + Zpos ay)%Z with (Zpos (ax + ay)).
    cbn [binary_normalize]. unfold binary_round.
    set (p := (ax + ay)%positive).
    destruct (shl_align_val p ez
                (fexp prec emax (Zpos (digits2_pos p) + ez))) as (Vz & Lz & _).
    destruct (shl_align p ez (fexp prec emax (Zpos (digits2_pos p) + ez)))
      as [mz ez'].
    cbn [fst snd] in Vz, Lz.
    assert (Hp : SFval mz ez' <= ux + uy).
    { rewrite Vz. unfold p. rewrite SFval_add, Vx, Vy. lra. }
    pose proof (binary_round_aux_upper mz ez' L
                  ltac:(unfold ez in Lz; lia) Hmin Hmax
                  (Qle_trans _ _ _ Hp Hu)) as R.
    destruct (binary_round_aux prec emax false (Zpos mz) ez' loc_Exact)
      as [s|s| |s m' e']; cbn [nonneg_upto]; try tauto.
    destruct R as (-> & R1 & R2). split; [|assumption].
    eapply Qle_trans; [exact R1|]. lra.
Qed.

(** [Math.round] of a number in [0, 100.5) is a zero or one of the
    integers 0, ..., 100. *)
Lemma SFround_small (x : spec_float) (u : Q) :
  nonneg_upto x u (-1) -> u < 201 # 2 ->
  (exists s, SFround x = S754_zero s)
  \/ exists n, (0 <= n <= 100)%Z
               /\ SFround x = binary_normalize prec emax n 0 false.
Proof.
  intros Hx Hu.
  destruct x as [s|s| |[] m e]; cbn [nonneg_upto] in Hx;
    [left; now exists s|contradiction|contradiction|contradiction|].
  destruct Hx as [Hv He]. right. cbn [SFround cond_Zopp].
  destruct (Z.leb_spec 0 e) as [Hpos|_]; [lia|].
  eexists; split; [|reflexivity].
  assert (Ht : (0 < 2 ^ (- e))%Z) by (apply Z.pow_pos_nonneg; lia).
  assert (E2 : (2 ^ (1 - e) = 2 * 2 ^ (- e))%Z).
  { replace (1 - e)%Z with (Z.succ (- e)) by lia. apply Z.pow_succ_r. lia. }
  assert (Hm : (2 * Zpos m < 201 * 2 ^ (- e))%Z).
  { rewrite (Zlt_Qlt (2 * Zpos m) (201 * 2 ^ (- e))).
    rewrite !inject_Z_mult, (pow2_inject (- e)) by lia.
    pose proof (pow2_pos e) as Pe. pose proof (pow2_pos (- e)) as Pn.
    assert (P1 : 2 ^ e * 2 ^ (- e) == 1).
    { rewrite <- pow2_add. now replace (e + - e)%Z with 0%Z by lia. }
    assert (Hlt : inject_Z (Zpos m) * 2 ^ e * 2 ^ (- e) < (201 # 2) * 2 ^ (- e)).
    { apply Qmult_lt_compat_r; [assumption|].
      eapply Qle_lt_trans; [exact Hv|exact Hu]. }
    rewrite <- Qmult_assoc, P1, Qmult_1_r in Hlt.
    change (inject_Z 2) with 2. change (inject_Z 201) with 201. lra. }
  split.
  - apply Z.div_pos; lia.
  - apply Z.lt_succ_r. apply Z.div_lt_upper_bound; lia.
Qed.

Lemma small_integers_ok (n : Z) :
  (0 <= n <= 100)%Z -> small_integer_ok n = true.
Proof.
  intros H.
  assert (A : forallb small_integer_ok (map Z.of_nat (seq 0 101)) = true)
    by (vm_compute; reflexivity).
  rewrite forallb_forall in A. apply A. apply in_map_iff.
  exists (Z.to_nat n). split; [lia|apply in_seq; lia].
Qed.

(** The strength computed by [combineSignals] from two strengths between 0
    and 100 is between 0 and 100. *)
Lemma weighted_round_bounds (d i : float) :
  (0 <=? d)%float = true -> (d <=? 100)%float = true ->
  (0 <=? i)%float = true -> (i <=? 100)%float = true ->
  (0 <=? Math_round (d * 0.6 + i * 0.4))%float = true
  /\ (Math_round (d * 0.6 + i * 0.4) <=? 100)%float = true.
Proof.
  intros Hd0 Hd1 Hi0 Hi1.
  pose proof (between_0_100 d Hd0 Hd1) as Hd.
  pose proof (between_0_100 i Hi0 Hi1) as Hi.
  assert (HA := SFmul_upper _ 5404319552844595 (-53) _ _ 6 Hd
                  ltac:(lia) ltac:(lia) ltac:(lia)
                  ltac:(vm_compute; discriminate)).
  assert (HB := SFmul_upper _ 7205759403792794 (-54) _ _ 6 Hi
                  ltac:(lia) ltac:(lia) ltac:(lia)
                  ltac:(vm_compute; discriminate)).
  assert (HV := SFadd_upper _ _ _ _ (-45) 7 HA HB
                  ltac:(vm_compute; discriminate)
                  ltac:(vm_compute; discriminate)
                  ltac:(lia) ltac:(lia) ltac:(lia)
                  ltac:(vm_compute; discriminate)).
  apply (fun H => nonneg_upto_weaken _ _ _ _ (-1) H (Qle_refl _)) in HV; [|lia].
  apply SFround_small in HV; [|vm_compute; reflexivity].
  unfold Math_round.
  rewrite add_spec, !mul_spec.
  change (Prim2SF 0.6%float) with (S754_finite false 5404319552844595 (-53)).
  change (Prim2SF 0.4%float) with (S754_finite false 7205759403792794 (-54)).
  fold (SF64mul (Prim2SF d) (S754_finite false 5404319552844595 (-53))) in HV.
  destruct HV as [[s ->]|(n & Hn & ->)].
  - destruct s; split; reflexivity.
  - pose proof (small_integers_ok n Hn) as K. unfold small_integer_ok in K.
    apply andb_prop in K as [K K3]. apply andb_prop in K as [K1 K2].
    rewrite !leb_spec, (Prim2SF_SF2Prim _ K1).
    change (Prim2SF 0) with (S754_zero false).
    change (Prim2SF 100) with (S754_finite false 7036874417766400 (-46)).
    now split.
Qed.

End Binary64Bounds.

(** ** Indicator library *)

Lemma index_in_range (arr : list float) (i : Z) :
  (0 <= i < len arr)%Z -> exists x, index arr i = Some x.
Proof.
  unfold index, len. intros H.
  destruct (Z.ltb_spec i 0) as [Hneg|_]; [lia|].
  destruct (nth_error arr (Z.to_nat i)) as [x|] eqn:E; [now exists x|].
  apply nth_error_None in E. lia.
Qed.

(** Two binary64 constants that compare different are different. *)
Ltac float_discriminate H :=
  match type of H with
  | ?a = ?b =>
      apply (f_equal (fun x => x =? b)) in H; vm_compute in H; discriminate H
  end.

(** C1 (as amended): for every period of at least 1 and every series with at
    least [period] closes, [calculateMomentum] is the percentage change
    [(latest - past) / past * 100] between the latest close and the close
    [period - 1] positions before it (index [length - period], the first
    close of the trailing window of [period] closes); on a series with fewer
    than [period] closes it is 0. *)
Theorem C1_momentum_window (prices : list float) (period : nat) :
  (1 <= period)%nat ->
  ((period <= List.length prices)%nat ->
   exists latest past,
     stepsBack prices 0 = Some latest
     /\ stepsBack prices (Z.of_nat period - 1) = Some past
     /\ calculateMomentum prices period = ((latest - past) / past) * 100)
  /\ ((List.length prices < period)%nat -> calculateMomentum prices period = 0).
Proof.
  intros Hp. unfold calculateMomentum, stepsBack. split; intros Hlen.
  - destruct (Nat.ltb_spec (List.length prices) period) as [Hlt|_]; [lia|].
    destruct (index_in_range prices (len prices - 1)) as [latest Hl];
      [unfold len; lia|].
    destruct (index_in_range prices (len prices - Z.of_nat period))
      as [past Hq]; [unfold len; lia|].
    exists latest, past.
    replace (len prices - 1 - 0)%Z with (len prices - 1)%Z by lia.
    replace (len prices - 1 - (Z.of_nat period - 1))%Z
      with (len prices - Z.of_nat period)%Z by lia.
    rewrite Hl, Hq. auto.
  - destruct (Nat.ltb_spec (List.length prices) period) as [_|Hge]; [reflexivity|lia].
Qed.

Lemma C1_momentum_window_witness :
  (exists latest past,
     stepsBack oneToEleven 0 = Some latest
     /\ stepsBack oneToEleven (Z.of_nat 10 - 1) = Some past
     /\ calculateMomentum oneToEleven 10 = ((latest - past) / past) * 100)
  /\ calculateMomentum [1; 2; 3] 10 = 0.
Proof.
  split.
  - apply (C1_momentum_window oneToEleven 10); simpl; lia.
  - apply (C1_momentum_window [1; 2; 3] 10); simpl; lia.
Defined.

(** C1 as stated fails on the closes 1, ..., 11 with period 10: the close
    10 positions before the latest is 1, which would give 1000, while the
    code reads index [11 - 10 = 1], the close 2, and returns 450. *)
Lemma C1_counterexample :
  (10 <= List.length oneToEleven)%nat
  /\ stepsBack oneToEleven 0 = Some 11
  /\ stepsBack oneToEleven 10 = Some 1
  /\ ((11 - 1) / 1) * 100 = 1000
  /\ calculateMomentum oneToEleven 10 = 450
  /\ ~ momentum_as_specified oneToEleven 10.
Proof.
  repeat split; try (vm_compute; reflexivity).
  - simpl; lia.
  - intros H. destruct H as (latest & past & Hl & Hq & E); [simpl; lia|].
    vm_compute in Hl, Hq. injection Hl as <-. injection Hq as <-.
    replace (calculateMomentum oneToEleven 10) with 450 in E
      by (vm_compute; reflexivity).
    float_discriminate E.
Qed.

(** ** Signal generator *)

(** The outcomes of the classification: HOLD at 40, or BUY or SELL at 80,
    90 or 100. *)
Lemma classify_cases (currentPrice sma20 sma50 rsi momentum : float) :
  classify currentPrice sma20 sma50 rsi momentum = (HOLD, 40)
  \/ exists d s,
      classify currentPrice sma20 sma50 rsi momentum = (d, s)
      /\ (d = BUY \/ d = SELL) /\ (s = 80 \/ s = 90 \/ s = 100).
Proof.
  unfold classify.
  destruct (buyRule currentPrice sma20 sma50 rsi momentum).
  - right. exists BUY.
    destruct (lt rsi 30), (gt momentum 5); eexists;
      (split; [reflexivity|]); split; auto.
  - destruct (sellRule currentPrice sma20 sma50 rsi momentum).
    + right. exists SELL.
      destruct (gt rsi 70), (lt momentum (-5)); eexists;
        (split; [reflexivity|]); split; auto.
    + now left.
Qed.

Lemma generateSignal_classify (data : list MarketDataPoint) (tf : string) :
  let closes := map close data in
  (signal (generateSignal data tf), strength (generateSignal data tf))
  = classify (toNumber (stepsBack closes 0))
      (calculateSMA closes 20) (calculateSMA closes 50)
      (calculateRSI closes 14) (calculateMomentum closes 10).
Proof.
  unfold generateSignal, stepsBack; simpl.
  replace (len (map close data) - 1 - 0)%Z
    with (len (map close data) - 1)%Z by lia.
  now destruct (classify _ _ _ _ _).
Qed.

(** [generateSignal] reads nothing of a bar but its close. *)
Lemma generateSignal_closes (d1 d2 : list MarketDataPoint) (tf : string) :
  map close d1 = map close d2 -> generateSignal d1 tf = generateSignal d2 tf.
Proof. unfold generateSignal. now intros ->. Qed.

(** The strict comparisons of the two rules on the price and [sma20] are
    opposite, so the rules never hold together. *)
Lemma buyRule_sellRule_exclusive (currentPrice sma20 sma50 rsi momentum : float) :
  buyRule currentPrice sma20 sma50 rsi momentum
  && sellRule currentPrice sma20 sma50 rsi momentum = false.
Proof.
  unfold buyRule, sellRule, gt, lt.
  destruct (sma20 <? currentPrice) eqn:E; [|reflexivity].
  now rewrite (ltb_asym _ _ E), !andb_false_r.
Qed.

(** C9: the strength returned by [generateSignal] is 40 with HOLD, and 80,
    90 or 100 with BUY or SELL; these are the values of
    [Math.min(100, base + bonus)] for base 70 or 90 and bonus 10 or 20. *)
Theorem C9_strength_values (data : list MarketDataPoint) (tf : string) :
  ((signal (generateSignal data tf) = HOLD
    /\ strength (generateSignal data tf) = 40)
   \/ ((signal (generateSignal data tf) = BUY
        \/ signal (generateSignal data tf) = SELL)
       /\ (strength (generateSignal data tf) = 80
           \/ strength (generateSignal data tf) = 90
           \/ strength (generateSignal data tf) = 100)))
  /\ Math_min 100 (70 + 10) = 80 /\ Math_min 100 (70 + 20) = 90
  /\ Math_min 100 (90 + 10) = 100 /\ Math_min 100 (90 + 20) = 100.
Proof.
  split; [|repeat split; reflexivity].
  pose proof (generateSignal_classify data tf) as E. simpl in E.
  destruct (classify_cases (toNumber (stepsBack (map close data) 0))
              (calculateSMA (map close data) 20)
              (calculateSMA (map close data) 50)
              (calculateRSI (map close data) 14)
              (calculateMomentum (map close data) 10))
    as [H|(d & s & H & Hd & Hs)];
    rewrite H in E; injection E as -> ->; [left|right]; auto.
Qed.

(** C5: [generateSignal] answers BUY exactly when there is a latest close
    [P] with [P > sma20], [sma20 > sma50], [rsi < 70] and [momentum > 0];
    its strength is then [min(100, base + bonus)] with base 90 if
    [rsi < 30] and 70 otherwise, and bonus 20 if [momentum > 5] and 10
    otherwise; the BUY and SELL rules never hold together, as one needs
    [P > sma20] and the other [P < sma20]. *)
Theorem C5_buy_classification (data : list MarketDataPoint) (tf : string) :
  let closes := map close data in
  let sma20 := calculateSMA closes 20 in
  let sma50 := calculateSMA closes 50 in
  let rsi := calculateRSI closes 14 in
  let momentum := calculateMomentum closes 10 in
  (signal (generateSignal data tf) = BUY <->
   exists P, stepsBack closes 0 = Some P
             /\ gt P sma20 = true /\ gt sma20 sma50 = true
             /\ lt rsi 70 = true /\ gt momentum 0 = true)
  /\ (signal (generateSignal data tf) = BUY ->
      strength (generateSignal data tf)
      = Math_min 100 ((if lt rsi 30 then 90 else 70)
                      + (if gt momentum 5 then 20 else 10)))
  /\ (forall P a b r m, buyRule P a b r m && sellRule P a b r m = false)
  /\ (forall P a, gt P a && lt P a = false).
Proof.
  intros closes sma20 sma50 rsi momentum.
  pose proof (generateSignal_classify data tf) as E. simpl in E.
  fold closes sma20 sma50 rsi momentum in E.
  unfold classify in E.
  split; [|split; [|split]].
  - split.
    + intros HB.
      destruct (buyRule (toNumber (stepsBack closes 0)) sma20 sma50 rsi momentum)
        eqn:R.
      * destruct (stepsBack closes 0) as [P|] eqn:EP.
        -- exists P. simpl in R. unfold buyRule in R.
           apply andb_prop in R as [R R4]. apply andb_prop in R as [R R3].
           apply andb_prop in R as [R1 R2]. auto.
        -- simpl in R. unfold buyRule, gt in R. now rewrite ltb_nan_r in R.
      * destruct (sellRule _ _ _ _ _); injection E as E1 _; congruence.
    + intros (P & EP & R1 & R2 & R3 & R4). rewrite EP in E. simpl in E.
      unfold buyRule in E. rewrite R1, R2, R3, R4 in E. simpl in E.
      now injection E as -> _.
  - intros HB.
    destruct (buyRule (toNumber (stepsBack closes 0)) sma20 sma50 rsi momentum).
    + now injection E as _ ->.
    + destruct (sellRule _ _ _ _ _); injection E as E1 _; congruence.
  - apply buyRule_sellRule_exclusive.
  - intros P a. unfold gt, lt.
    destruct (a <? P) eqn:H; [|reflexivity]. now rewrite (ltb_asym _ _ H).
Qed.

Lemma C5_buy_classification_witness :
  (exists P, stepsBack (map close risingBars) 0 = Some P
             /\ gt P (calculateSMA (map close risingBars) 20) = true
             /\ gt (calculateSMA (map close risingBars) 20)
                   (calculateSMA (map close risingBars) 50) = true
             /\ lt (calculateRSI (map close risingBars) 14) 70 = true
             /\ gt (calculateMomentum (map close risingBars) 10) 0 = true)
  /\ strength (generateSignal risingBars "daily") = 80.
Proof.
  split.
  - apply (proj1 (C5_buy_classification risingBars "daily")).
    vm_compute; reflexivity.
  - rewrite (proj1 (proj2 (C5_buy_classification risingBars "daily")));
      vm_compute; reflexivity.
Defined.

(** C8: on fifty closes all equal to 100, [sma20] and [sma50] are 100,
    the RSI is 100 (the losses sum to zero, so the [avgLoss === 0] branch
    answers 100, not 50), the momentum is 0, and the signal is HOLD with
    strength 40. *)
Theorem C8_flat_series (data : list MarketDataPoint) (tf : string) :
  map close data = repeat 100 50 ->
  calculateSMA (map close data) 20 = 100
  /\ calculateSMA (map close data) 50 = 100
  /\ strict_eq
       (sum (map (fun c => if lt c 0 then - c else 0)
                 (slice_last 14 (changes (map close data))))
        / of_nat 14) 0 = true
  /\ calculateRSI (map close data) 14 = 100
  /\ calculateMomentum (map close data) 10 = 0
  /\ generateSignal data tf
     = {| timeframe := tf; signal := HOLD; strength := 40;
          indicators := {| sma20 := 100; sma50 := 100;
                           rsi := 100; momentum := 0 |} |}.
Proof.
  intros H. unfold generateSignal. rewrite H.
  repeat split; vm_compute; reflexivity.
Qed.

Lemma C8_flat_series_witness :
  calculateSMA (map close flatBars) 20 = 100
  /\ calculateSMA (map close flatBars) 50 = 100
  /\ strict_eq
       (sum (map (fun c => if lt c 0 then - c else 0)
                 (slice_last 14 (changes (map close flatBars))))
        / of_nat 14) 0 = true
  /\ calculateRSI (map close flatBars) 14 = 100
  /\ calculateMomentum (map close flatBars) 10 = 0
  /\ generateSignal flatBars "daily"
     = {| timeframe := "daily"; signal := HOLD; strength := 40;
          indicators := {| sma20 := 100; sma50 := 100;
                           rsi := 100; momentum := 0 |} |}.
Proof. apply (C8_flat_series flatBars "daily"). vm_compute; reflexivity. Defined.

(** C10: on the empty series [generateSignal] returns HOLD with strength
    40 and the indicators 0, 0, 50, 0; the latest close is missing, so both
    the BUY and the SELL comparison with it fail; and [handler] answers
    every pair of series with its 200 response, never with the error. *)
Theorem C10_empty_series (tf : string) :
  generateSignal [] tf = fallbackSignal tf
  /\ stepsBack (map close []) 0 = None
  /\ (forall a b r m, buyRule (toNumber None) a b r m = false
                      /\ sellRule (toNumber None) a b r m = false)
  /\ (forall Number_toString symbol data15m dataDaily,
        exists r, respond Number_toString symbol data15m dataDaily = Ok200 r
                  /\ signals_daily r = generateSignal dataDaily "daily"
                  /\ signals_intraday r = generateSignal data15m "15min").
Proof.
  split; [reflexivity|]. split; [reflexivity|]. split.
  - intros a b r m. unfold buyRule, sellRule, gt, lt; simpl.
    now rewrite ltb_nan_r, ltb_nan_l.
  - intros N symbol d15 dd. eexists. split; [reflexivity|]. split; reflexivity.
Qed.

(** C3 (as amended): no series is rejected. [handler] answers every pair
    of series, empty and unordered ones included, with its 200 response
    built from [generateSignal]; [generateSignal] reads only the closes, so
    two series with the same closes get the same signal whatever their
    timestamps; and on the empty series it returns HOLD, strength 40, with
    the fallback indicators 0, 0, 50, 0. *)
Theorem C3_no_rejection :
  (forall Number_toString symbol data15m dataDaily,
     ~ rejected (respond Number_toString symbol data15m dataDaily)
     /\ exists r, respond Number_toString symbol data15m dataDaily = Ok200 r
                  /\ signals_daily r = generateSignal dataDaily "daily"
                  /\ signals_intraday r = generateSignal data15m "15min")
  /\ (forall d1 d2 tf,
        map close d1 = map close d2 ->
        generateSignal d1 tf = generateSignal d2 tf)
  /\ (forall tf, generateSignal [] tf = fallbackSignal tf).
Proof.
  split; [|split].
  - intros N symbol d15 dd. split.
    + intros [e H]. discriminate H.
    + eexists. split; [reflexivity|]. split; reflexivity.
  - apply generateSignal_closes.
  - reflexivity.
Qed.

Lemma C3_no_rejection_witness :
  invalid_series unorderedBars = true
  /\ invalid_series orderedBars = false
  /\ generateSignal unorderedBars "daily" = generateSignal orderedBars "daily".
Proof.
  split; [reflexivity|]. split; [reflexivity|].
  apply (proj1 (proj2 C3_no_rejection)). reflexivity.
Defined.

(** C3 as stated fails: the empty series and a series with unordered
    timestamps are both invalid, yet [generateSignal] returns a signal for
    each (for the empty one the fallback values themselves) and [handler]
    answers with its 200 response, not with a rejection. *)
Lemma C3_counterexample :
  invalid_series [] = true
  /\ invalid_series unorderedBars = true
  /\ generateSignal [] "daily" = fallbackSignal "daily"
  /\ generateSignal unorderedBars "daily"
     = {| timeframe := "daily"; signal := HOLD; strength := 40;
          indicators := {| sma20 := 3; sma50 := 3; rsi := 50; momentum := 0 |} |}
  /\ (forall Number_toString,
        ~ rejected (respond Number_toString "AAPL" [] [])
        /\ ~ rejected (respond Number_toString "AAPL" unorderedBars
                               unorderedBars)).
Proof.
  split; [reflexivity|]. split; [reflexivity|].
  split; [reflexivity|]. split; [vm_compute; reflexivity|].
  intros N. split; intros [e H]; discriminate H.
Qed.

(** ** Recommendation text *)

(** C2 (the code departs from it): the route combines a daily BUY of
    strength 80 with an intraday HOLD of strength 40 into a BUY of strength
    64; as 64 is not above 80 the text should begin with "Moderate BUY", but
    the template keeps its leading "Strong " in both branches and the text
    begins "Strong Moderate BUY signal." *)
Theorem C2_moderate_buy_text (Number_toString : float -> string) :
  signal dailyBuy = BUY /\ strength dailyBuy = 80
  /\ signal intradayHold = HOLD /\ strength intradayHold = 40
  /\ signal combinedBuy = BUY /\ strength combinedBuy = 64
  /\ gt (strength combinedBuy) 80 = false
  /\ formatRecommendation Number_toString dailyBuy intradayHold combinedBuy
     = ("Strong Moderate BUY signal. Daily trend is BUY with "
        ++ Number_toString 80
        ++ "% confidence. 15-min trend shows HOLD with "
        ++ Number_toString 40 ++ "% confidence.")%string
  /\ String.prefix "Moderate BUY"
       (formatRecommendation Number_toString dailyBuy intradayHold combinedBuy)
     = false
  /\ String.prefix "Strong Moderate BUY"
       (formatRecommendation Number_toString dailyBuy intradayHold combinedBuy)
     = true.
Proof. repeat split; vm_compute; reflexivity. Qed.

(** The same holds of every combined BUY or SELL whose strength is not
    above 80: the text starts with "Strong Moderate". *)
Lemma formatRecommendation_not_above_80
    (Number_toString : float -> string) (d i c : TradingSignal) :
  signal c <> HOLD -> gt (strength c) 80 = false ->
  String.prefix "Strong Moderate "
    (formatRecommendation Number_toString d i c) = true.
Proof.
  intros Hs Hg. unfold formatRecommendation.
  destruct (signal c); [| |congruence]; rewrite Hg; reflexivity.
Qed.

(** ** Signal combiner *)

(** C6: the combined direction is the shared direction when both inputs
    agree; BUY when daily is BUY and intraday is not SELL; SELL when daily
    is SELL and intraday is not BUY; HOLD in every other disagreement, in
    particular whenever daily is HOLD and intraday differs. *)
Theorem C6_combined_direction (daily intraday : TradingSignal) :
  (signal daily = signal intraday ->
   signal (combineSignals daily intraday) = signal daily)
  /\ (signal daily = BUY -> signal intraday <> SELL ->
      signal (combineSignals daily intraday) = BUY)
  /\ (signal daily = SELL -> signal intraday <> BUY ->
      signal (combineSignals daily intraday) = SELL)
  /\ (signal daily <> signal intraday ->
      ~ (signal daily = BUY /\ signal intraday <> SELL) ->
      ~ (signal daily = SELL /\ signal intraday <> BUY) ->
      signal (combineSignals daily intraday) = HOLD)
  /\ (signal daily = HOLD -> signal intraday <> HOLD ->
      signal (combineSignals daily intraday) = HOLD).
Proof.
  unfold combineSignals; simpl.
  destruct (signal daily), (signal intraday); simpl;
    repeat split; intros; try reflexivity; try congruence;
    exfalso; intuition congruence.
Qed.

Lemma C6_combined_direction_witness :
  signal (combineSignals (mkSignal "daily" SELL 80) (mkSignal "15min" SELL 90))
  = SELL
  /\ signal (combineSignals (mkSignal "daily" BUY 80) (mkSignal "15min" HOLD 40))
     = BUY
  /\ signal (combineSignals (mkSignal "daily" SELL 80) (mkSignal "15min" HOLD 40))
     = SELL
  /\ signal (combineSignals (mkSignal "daily" BUY 80) (mkSignal "15min" SELL 60))
     = HOLD
  /\ signal (combineSignals (mkSignal "daily" HOLD 40) (mkSignal "15min" BUY 90))
     = HOLD.
Proof.
  split; [|split; [|split; [|split]]].
  - apply (proj1 (C6_combined_direction (mkSignal "daily" SELL 80)
                                        (mkSignal "15min" SELL 90))).
    reflexivity.
  - apply (proj1 (proj2 (C6_combined_direction (mkSignal "daily" BUY 80)
                                               (mkSignal "15min" HOLD 40))));
      [reflexivity | discriminate].
  - apply (proj1 (proj2 (proj2
             (C6_combined_direction (mkSignal "daily" SELL 80)
                                    (mkSignal "15min" HOLD 40)))));
      [reflexivity | discriminate].
  - apply (proj1 (proj2 (proj2 (proj2
             (C6_combined_direction (mkSignal "daily" BUY 80)
                                    (mkSignal "15min" SELL 60))))));
      simpl;
      [discriminate | intros [_ H]; now apply H | intros [H _]; discriminate H].
  - apply (proj2 (proj2 (proj2 (proj2
             (C6_combined_direction (mkSignal "daily" HOLD 40)
                                    (mkSignal "15min" BUY 90))))));
      [reflexivity | discriminate].
Defined.

(** C7: the combined strength is [Math.round] of 0.6 times the daily
    strength plus 0.4 times the intraday strength (in the code's operand
    order and, multiplication being commutative, in the specification's),
    the timeframe is the label "combined", and the indicators are those of
    the daily signal, unchanged. *)
Theorem C7_combined_fields (daily intraday : TradingSignal) :
  strength (combineSignals daily intraday)
  = Math_round (strength daily * 0.6 + strength intraday * 0.4)
  /\ strength (combineSignals daily intraday)
     = Math_round (0.6 * strength daily + 0.4 * strength intraday)
  /\ timeframe (combineSignals daily intraday) = "combined"%string
  /\ indicators (combineSignals daily intraday) = indicators daily.
Proof.
  unfold combineSignals, dailyWeight, intradayWeight; simpl.
  rewrite (mul_comm 0.6 (strength daily)), (mul_comm 0.4 (strength intraday)).
  repeat split; reflexivity.
Qed.

(** ** Range of the strengths *)

(** C4: for every series, the strength returned by [generateSignal] lies
    between 0 and 100 and its signal is BUY, SELL or HOLD; and for every
    pair of signals whose strengths lie between 0 and 100, the strength
    returned by [combineSignals] lies between 0 and 100 and its signal is
    BUY, SELL or HOLD. *)
Theorem C4_strength_range :
  (forall data tf,
     (0 <=? strength (generateSignal data tf)) = true
     /\ (strength (generateSignal data tf) <=? 100) = true
     /\ (signal (generateSignal data tf) = BUY
         \/ signal (generateSignal data tf) = SELL
         \/ signal (generateSignal data tf) = HOLD))
  /\ (forall daily intraday,
        (0 <=? strength daily) = true -> (strength daily <=? 100) = true ->
        (0 <=? strength intraday) = true ->
        (strength intraday <=? 100) = true ->
        (0 <=? strength (combineSignals daily intraday)) = true
        /\ (strength (combineSignals daily intraday) <=? 100) = true
        /\ (signal (combineSignals daily intraday) = BUY
            \/ signal (combineSignals daily intraday) = SELL
            \/ signal (combineSignals daily intraday) = HOLD)).
Proof.
  split.
  - intros data tf.
    pose proof (generateSignal_classify data tf) as E. simpl in E.
    destruct (classify_cases (toNumber (stepsBack (map close data) 0))
                (calculateSMA (map close data) 20)
                (calculateSMA (map close data) 50)
                (calculateRSI (map close data) 14)
                (calculateMomentum (map close data) 10))
      as [H|(d & s & H & Hd & Hs)];
      rewrite H in E; injection E as -> ->.
    + repeat split; auto.
    + destruct Hs as [-> | [-> | ->]]; (split; [reflexivity|]);
        (split; [reflexivity|]); destruct Hd as [-> | ->]; auto.
  - intros daily intraday Hd0 Hd1 Hi0 Hi1.
    destruct (weighted_round_bounds _ _ Hd0 Hd1 Hi0 Hi1) as [L U].
    unfold combineSignals, dailyWeight, intradayWeight; cbn [strength signal].
    split; [exact L|]. split; [exact U|].
    destruct (signal daily), (signal intraday); cbn; auto.
Qed.

Lemma C4_strength_range_witness :
  (0 <=? strength (combineSignals dailyBuy intradayHold)) = true
  /\ (strength (combineSignals dailyBuy intradayHold) <=? 100) = true
  /\ (signal (combineSignals dailyBuy intradayHold) = BUY
      \/ signal (combineSignals dailyBuy intradayHold) = SELL
      \/ signal (combineSignals dailyBuy intradayHold) = HOLD).
Proof.
  apply (proj2 C4_strength_range dailyBuy intradayHold);
    vm_compute; reflexivity.
Defined.


(** * Further properties of the route *)

(** ** More facts on binary64 comparison *)

Lemma SFcompare_refl_nan (x : spec_float) :
  SFeqb x x = false -> x = S754_nan.
Proof.
  unfold SFeqb. destruct x as [[]|[]| |[] m e]; simpl; try discriminate;
    try reflexivity;
    rewrite Z.compare_refl, Pos.compare_cont_refl; discriminate.
Qed.

Lemma is_nan_eq (x : float) : is_nan x = true -> x = nan.
Proof.
  unfold is_nan. rewrite eqb_spec. intros H.
  apply Prim2SF_inj. change (Prim2SF nan) with S754_nan.
  apply SFcompare_refl_nan. now destruct (SFeqb (Prim2SF x) (Prim2SF x)).
Qed.

Lemma is_zero_spec (x : float) :
  is_zero x = true -> exists s, Prim2SF x = S754_zero s.
Proof.
  unfold is_zero. rewrite eqb_spec. change (Prim2SF zero) with (S754_zero false).
  unfold SFeqb. destruct (Prim2SF x) as [s|[]| |[] m e]; simpl;
    try discriminate. intros _. now exists s.
Qed.

(** Comparisons do not see the sign of a zero. *)
Lemma ltb_zero_r (a x : float) : is_zero x = true -> (a <? x) = (a <? 0).
Proof.
  intros H. destruct (is_zero_spec x H) as [s E].
  rewrite !ltb_spec, E. change (Prim2SF 0) with (S754_zero false).
  unfold SFltb. now destruct (Prim2SF a) as [[]|[]| |[] m e], s.
Qed.

Lemma ltb_zero_l (a x : float) : is_zero x = true -> (x <? a) = (0 <? a).
Proof.
  intros H. destruct (is_zero_spec x H) as [s E].
  rewrite !ltb_spec, E. change (Prim2SF 0) with (S754_zero false).
  unfold SFltb. now destruct (Prim2SF a) as [[]|[]| |[] m e], s.
Qed.

(** ** Short histories *)

(** When [sma50] is the fallback of [calculateSMA] (the latest close, or 0),
    neither rule can hold: each asks for [sma20] strictly between the price
    and [sma50]. *)
Lemma rules_fail_on_fallback (v : value) (sma20 rsi momentum : float) :
  buyRule (toNumber v) sma20 (or_else v 0) rsi momentum = false
  /\ sellRule (toNumber v) sma20 (or_else v 0) rsi momentum = false.
Proof.
  unfold buyRule, sellRule, gt, lt.
  destruct v as [x|]; cbn [toNumber or_else].
  - destruct (is_nan x) eqn:Hn; cbn [orb].
    + apply is_nan_eq in Hn. subst x. now rewrite ltb_nan_r, ltb_nan_l.
    + destruct (is_zero x) eqn:Hz.
      * rewrite (ltb_zero_r sma20 x Hz), (ltb_zero_l sma20 x Hz).
        destruct (sma20 <? 0) eqn:E1.
        -- rewrite (ltb_asym _ _ E1). split; reflexivity.
        -- destruct (0 <? sma20); split; reflexivity.
      * destruct (sma20 <? x) eqn:E1.
        -- rewrite (ltb_asym _ _ E1). split; reflexivity.
        -- destruct (x <? sma20); split; reflexivity.
  - now rewrite ltb_nan_r, ltb_nan_l.
Qed.

(** X5. On fewer than 50 bars [generateSignal] always answers HOLD with
    strength 40: [sma50] falls back to the latest close, so the price can
    be neither above nor below both averages. *)
Theorem generateSignal_short_history (data : list MarketDataPoint) (tf : string) :
  (List.length data < 50)%nat ->
  signal (generateSignal data tf) = HOLD
  /\ strength (generateSignal data tf) = 40.
Proof.
  intros Hlen.
  pose proof (generateSignal_classify data tf) as E. cbv zeta in E.
  assert (H50 : calculateSMA (map close data) 50
                = or_else (stepsBack (map close data) 0) 0).
  { unfold calculateSMA, stepsBack. rewrite length_map.
    destruct (Nat.ltb_spec (List.length data) 50) as [_|Hge]; [|lia].
    now replace (len (map close data) - 1 - 0)%Z
      with (len (map close data) - 1)%Z by lia. }
  rewrite H50 in E. unfold classify in E.
  destruct (rules_fail_on_fallback (stepsBack (map close data) 0)
              (calculateSMA (map close data) 20)
              (calculateRSI (map close data) 14)
              (calculateMomentum (map close data) 10)) as [Hb Hs].
  rewrite Hb, Hs in E. now injection E as -> ->.
Qed.

Lemma generateSignal_short_history_witness :
  signal (generateSignal (firstn 49 risingBars) "daily") = HOLD
  /\ strength (generateSignal (firstn 49 risingBars) "daily") = 40.
Proof.
  apply (generateSignal_short_history (firstn 49 risingBars) "daily").
  vm_compute. lia.
Defined.

(** ** The daily signal dominates the combination *)

(** X7. The combined direction is the daily direction or HOLD: the intraday
    signal can veto the daily one but never sets a direction of its own. A
    combined BUY needs a daily BUY and no intraday SELL; a combined SELL
    needs a daily SELL and no intraday BUY. *)
Theorem combineSignals_daily_dominates (daily intraday : TradingSignal) :
  (signal (combineSignals daily intraday) = signal daily
   \/ signal (combineSignals daily intraday) = HOLD)
  /\ (signal (combineSignals daily intraday) = BUY ->
      signal daily = BUY /\ signal intraday <> SELL)
  /\ (signal (combineSignals daily intraday) = SELL ->
      signal daily = SELL /\ signal intraday <> BUY).
Proof.
  unfold combineSignals; cbn [signal].
  destruct (signal daily), (signal intraday); cbn;
    (split; [auto|]); split; intros H; try discriminate H;
    (split; [reflexivity|discriminate]).
Qed.

Lemma combineSignals_daily_dominates_witness :
  signal dailyBuy = BUY /\ signal intradayHold <> SELL.
Proof.
  apply (proj1 (proj2 (combineSignals_daily_dominates dailyBuy intradayHold))).
  vm_compute. reflexivity.
Defined.

(** ** The indicators read a trailing window *)

Lemma skipn_app_tail {A : Type} (older w : list A) (k : nat) :
  (k <= List.length w)%nat ->
  skipn (List.length (older ++ w) - k) (older ++ w)
  = skipn (List.length w - k) w.
Proof.
  intros Hk. rewrite length_app, skipn_app.
  rewrite skipn_all2 by lia. cbn [app]. f_equal. lia.
Qed.

Lemma slice_last_app {A : Type} (older w : list A) (n : nat) :
  (1 <= n <= List.length w)%nat ->
  slice_last n (older ++ w) = slice_last n w.
Proof.
  intros Hn. unfold slice_last.
  destruct (Nat.eqb_spec n 0) as [->|_]; [lia|].
  apply skipn_app_tail. lia.
Qed.

Lemma changes_length (l : list float) :
  List.length (changes l) = (List.length l - 1)%nat.
Proof.
  induction l as [|a [|b t] IH]; [reflexivity|reflexivity|].
  change (changes (a :: b :: t)) with ((b - a) :: changes (b :: t)).
  cbn [List.length] in *. lia.
Qed.

Lemma changes_skipn (k : nat) :
  forall l, changes (skipn k l) = skipn k (changes l).
Proof.
  induction k as [|k IH]; intros l; [reflexivity|].
  destruct l as [|a [|b t]]; [reflexivity| |].
  - cbn [skipn changes]. now destruct k.
  - change (changes (a :: b :: t)) with ((b - a) :: changes (b :: t)).
    cbn [skipn]. apply IH.
Qed.

Lemma index_app_tail (older w : list float) (k : Z) :
  (1 <= k <= len w)%Z ->
  index (older ++ w) (len (older ++ w) - k) = index w (len w - k).
Proof.
  unfold index, len. intros Hk. rewrite length_app.
  destruct (Z.ltb_spec (Z.of_nat (List.length older + List.length w) - k) 0);
    [lia|].
  destruct (Z.ltb_spec (Z.of_nat (List.length w) - k) 0); [lia|].
  rewrite nth_error_app2 by lia. f_equal. lia.
Qed.

Lemma calculateSMA_app (older w : list float) (period : nat) :
  (1 <= period <= List.length w)%nat ->
  calculateSMA (older ++ w) period = calculateSMA w period.
Proof.
  intros Hw. unfold calculateSMA. rewrite length_app.
  destruct (Nat.ltb_spec (List.length older + List.length w) period); [lia|].
  destruct (Nat.ltb_spec (List.length w) period); [lia|].
  now rewrite slice_last_app by lia.
Qed.

Lemma calculateRSI_app (older w : list float) (period : nat) :
  (1 <= period)%nat -> (period + 1 <= List.length w)%nat ->
  calculateRSI (older ++ w) period = calculateRSI w period.
Proof.
  intros Hp Hw. unfold calculateRSI. rewrite length_app.
  destruct (Nat.ltb_spec (List.length older + List.length w) (period + 1));
    [lia|].
  destruct (Nat.ltb_spec (List.length w) (period + 1)); [lia|].
  assert (E : slice_last period (changes (older ++ w))
              = slice_last period (changes w)).
  { unfold slice_last. destruct (Nat.eqb_spec period 0) as [->|_]; [lia|].
    rewrite !changes_length, <- !changes_skipn. f_equal.
    replace (List.length (older ++ w) - 1 - period)%nat
      with (List.length (older ++ w) - (period + 1))%nat by lia.
    replace (List.length w - 1 - period)%nat
      with (List.length w - (period + 1))%nat by lia.
    apply skipn_app_tail. lia. }
  now rewrite E.
Qed.

Lemma calculateMomentum_app (older w : list float) (period : nat) :
  (1 <= period <= List.length w)%nat ->
  calculateMomentum (older ++ w) period = calculateMomentum w period.
Proof.
  intros Hw. unfold calculateMomentum. rewrite length_app.
  destruct (Nat.ltb_spec (List.length older + List.length w) period); [lia|].
  destruct (Nat.ltb_spec (List.length w) period); [lia|].
  rewrite (index_app_tail older w 1) by (unfold len; lia).
  now rewrite (index_app_tail older w (Z.of_nat period)) by (unfold len; lia).
Qed.

(** X2. Older closes never matter: on a series that ends with the window
    [w], each indicator has the value it has on [w] alone, as soon as [w]
    holds the closes the indicator needs ([period] for the moving average
    and the momentum, [period + 1] for the RSI). *)
Theorem indicators_read_trailing_window
    (older w : list float) (period : nat) :
  (1 <= period)%nat ->
  ((period <= List.length w)%nat ->
   calculateSMA (older ++ w) period = calculateSMA w period)
  /\ ((period + 1 <= List.length w)%nat ->
      calculateRSI (older ++ w) period = calculateRSI w period)
  /\ ((period <= List.length w)%nat ->
      calculateMomentum (older ++ w) period = calculateMomentum w period).
Proof.
  intros Hp. split; [|split]; intros Hw.
  - apply calculateSMA_app. lia.
  - now apply calculateRSI_app.
  - apply calculateMomentum_app. lia.
Qed.

Lemma indicators_read_trailing_window_witness :
  calculateSMA ([7; 9] ++ [1; 2; 3]) 3 = calculateSMA [1; 2; 3] 3
  /\ calculateRSI ([7; 9] ++ [1; 2; 3]) 2 = calculateRSI [1; 2; 3] 2
  /\ calculateMomentum ([7; 9] ++ [1; 2; 3]) 3 = calculateMomentum [1; 2; 3] 3.
Proof.
  split; [|split].
  - apply (proj1 (indicators_read_trailing_window [7; 9] [1; 2; 3] 3
                    ltac:(lia))). simpl; lia.
  - apply (proj1 (proj2 (indicators_read_trailing_window [7; 9] [1; 2; 3] 2
                           ltac:(lia)))). simpl; lia.
  - apply (proj2 (proj2 (indicators_read_trailing_window [7; 9] [1; 2; 3] 3
                           ltac:(lia)))). simpl; lia.
Defined.

(** X6. [generateSignal] on a series of at least 50 bars depends only on the
    closes of its last 50 bars: whatever comes before them, the signal is
    the one of the last 50 bars alone. *)
Theorem generateSignal_reads_last_50
    (older w : list MarketDataPoint) (tf : string) :
  (50 <= List.length w)%nat ->
  generateSignal (older ++ w) tf = generateSignal w tf.
Proof.
  intros Hw. unfold generateSignal. rewrite map_app.
  assert (Hl : (50 <= List.length (map close w))%nat) by now rewrite length_map.
  rewrite (calculateSMA_app _ _ 20), (calculateSMA_app _ _ 50),
    (calculateRSI_app _ _ 14), (calculateMomentum_app _ _ 10) by lia.
  now rewrite (index_app_tail (map close older) (map close w) 1)
    by (unfold len; lia).
Qed.

Lemma generateSignal_reads_last_50_witness :
  generateSignal (unorderedBars ++ flatBars) "daily"
  = generateSignal flatBars "daily".
Proof.
  apply (generateSignal_reads_last_50 unorderedBars flatBars "daily").
  vm_compute. lia.
Defined.

(** ** Synthetic data *)

Lemma syntheticLoop_length (random : nat -> float) (now interval : float)
    (i : nat) :
  forall k price,
    List.length (syntheticLoop random now interval i k price) = S i.
Proof.
  induction i as [|i IH]; intros k price; [reflexivity|].
  cbn [syntheticLoop List.length]. now rewrite IH.
Qed.

Lemma syntheticLoop_head (random : nat -> float) (now interval : float)
    (i k : nat) (price : float) :
  exists b rest,
    syntheticLoop random now interval i k price = b :: rest
    /\ open b = round2 price
    /\ timestamp b = now - (of_nat i * interval).
Proof.
  destruct i; cbn [syntheticLoop]; eexists; eexists;
    (split; [reflexivity|]); split; reflexivity.
Qed.

Lemma syntheticLoop_continuity (random : nat -> float) (now interval : float)
    (i : nat) :
  forall k price j b c,
    nth_error (syntheticLoop random now interval i k price) j = Some b ->
    nth_error (syntheticLoop random now interval i k price) (S j) = Some c ->
    open c = close b.
Proof.
  induction i as [|i IH]; intros k price j b c Hb Hc.
  - cbn [syntheticLoop nth_error] in Hc. now destruct j.
  - cbn [syntheticLoop] in Hb, Hc. destruct j as [|j].
    + cbn [nth_error] in Hb, Hc. injection Hb as <-.
      destruct (syntheticLoop_head random now interval i (k + 4)
                  (snd (syntheticStep random now interval (S i) k price)))
        as (h & rest & E & Ho & _).
      rewrite E in Hc. cbn [nth_error] in Hc. injection Hc as <-.
      rewrite Ho. reflexivity.
    + cbn [nth_error] in Hb. change (nth_error (?x :: ?l) (S (S j)))
        with (nth_error l (S j)) in Hc.
      exact (IH _ _ _ _ _ Hb Hc).
Qed.

(** X10. [generateSyntheticData] returns [periods + 1] bars (its loop runs from
    [periods] down to 0 inclusive): the first opens at the base price
    rounded to two decimals and is stamped [periods] intervals before the
    clock reading. *)
Theorem generateSyntheticData_length (random : nat -> float)
    (basePrice : float) (periods : nat) (interval now : float) (k : nat) :
  List.length (generateSyntheticData random basePrice periods interval now k)
  = (periods + 1)%nat
  /\ exists first rest,
      generateSyntheticData random basePrice periods interval now k
      = first :: rest
      /\ open first = round2 basePrice
      /\ timestamp first = now - (of_nat periods * interval).
Proof.
  unfold generateSyntheticData. split.
  - rewrite syntheticLoop_length. lia.
  - apply syntheticLoop_head.
Qed.

(** X11. In the series of [generateSyntheticData] every bar opens at the close
    of the bar before it, whatever [Math.random] returns. *)
Theorem generateSyntheticData_continuity (random : nat -> float)
    (basePrice : float) (periods : nat) (interval now : float) (k j : nat)
    (b c : MarketDataPoint) :
  nth_error (generateSyntheticData random basePrice periods interval now k) j
  = Some b ->
  nth_error (generateSyntheticData random basePrice periods interval now k)
    (S j) = Some c ->
  open c = close b.
Proof. apply syntheticLoop_continuity. Qed.

Lemma generateSyntheticData_continuity_witness :
  open (nth 1 (generateSyntheticData sampleRandom 150 2 900000
                 1700000000000 1) (bar 0 0))
  = close (nth 0 (generateSyntheticData sampleRandom 150 2 900000
                    1700000000000 1) (bar 0 0)).
Proof.
  apply (generateSyntheticData_continuity sampleRandom 150 2 900000
           1700000000000 1 0); vm_compute; reflexivity.
Defined.

(** ** The handler *)



Lemma generateSignal_strength_cases (data : list MarketDataPoint) (tf : string) :
  strength (generateSignal data tf) = 40
  \/ strength (generateSignal data tf) = 80
  \/ strength (generateSignal data tf) = 90
  \/ strength (generateSignal data tf) = 100.
Proof.
  pose proof (generateSignal_classify data tf) as E. cbv zeta in E.
  destruct (classify_cases (toNumber (stepsBack (map close data) 0))
              (calculateSMA (map close data) 20)
              (calculateSMA (map close data) 50)
              (calculateRSI (map close data) 14)
              (calculateMomentum (map close data) 10))
    as [H|(d & s & H & Hd & Hs)];
    rewrite H in E; injection E as _ ->; tauto.
Qed.



(** X9. In every response the combined strength lies between the intraday and
    the daily strength, hence between 40 and 100: the two strengths are
    among 40, 80, 90 and 100, and rounding their weighted mean stays
    between them. *)
Theorem respond_combined_strength (Number_toString : float -> string)
    (symbol : string) (data15m dataDaily : list MarketDataPoint) :
  exists r,
    respond Number_toString symbol data15m dataDaily = Ok200 r
    /\ (Math_min (strength (signals_daily r)) (strength (signals_intraday r))
        <=? strength (signals_combined r)) = true
    /\ (strength (signals_combined r)
        <=? Math_max (strength (signals_daily r))
                     (strength (signals_intraday r))) = true
    /\ (40 <=? strength (signals_combined r)) = true
    /\ (strength (signals_combined r) <=? 100) = true.
Proof.
  unfold respond. eexists. split; [reflexivity|].
  cbn [signals_daily signals_intraday signals_combined].
  unfold combineSignals, dailyWeight, intradayWeight. cbn [strength].
  destruct (generateSignal_strength_cases dataDaily "daily")
    as [-> | [-> | [-> | ->]]];
    destruct (generateSignal_strength_cases data15m "15min")
      as [-> | [-> | [-> | ->]]];
    repeat split; vm_compute; reflexivity.
Qed.

(** ** Strengths by agreement pattern *)

Lemma generateSignal_signal_strength (data : list MarketDataPoint) (tf : string) :
  (signal (generateSignal data tf) = HOLD
   /\ strength (generateSignal data tf) = 40)
  \/ (signal (generateSignal data tf) <> HOLD
      /\ (strength (generateSignal data tf) = 80
          \/ strength (generateSignal data tf) = 90
          \/ strength (generateSignal data tf) = 100)).
Proof.
  pose proof (generateSignal_classify data tf) as E. cbv zeta in E.
  destruct (classify_cases (toNumber (stepsBack (map close data) 0))
              (calculateSMA (map close data) 20)
              (calculateSMA (map close data) 50)
              (calculateRSI (map close data) 14)
              (calculateMomentum (map close data) 10))
    as [H|(d & s & H & Hd & Hs)];
    rewrite H in E; injection E as -> ->; [now left|right].
  split; [destruct Hd as [-> | ->]; discriminate|assumption].
Qed.

(** X8. What the route can report, by agreement of the two timeframes. When
    the daily signal is BUY or SELL and the intraday one is HOLD, the
    combined signal keeps the daily direction with strength 64, 70 or 76,
    never above the threshold 80 of the wording. When both are BUY, or both
    SELL, the combined signal has that direction and a strength of at least
    80. When the daily signal is HOLD, the combined one is HOLD. *)
Theorem combined_by_agreement (data15m dataDaily : list MarketDataPoint) :
  let daily := generateSignal dataDaily "daily" in
  let intraday := generateSignal data15m "15min" in
  let combined := combineSignals daily intraday in
  (signal daily <> HOLD -> signal intraday = HOLD ->
   signal combined = signal daily
   /\ (strength combined = 64 \/ strength combined = 70
       \/ strength combined = 76)
   /\ gt (strength combined) 80 = false)
  /\ (signal daily <> HOLD -> signal intraday = signal daily ->
      signal combined = signal daily
      /\ (80 <=? strength combined) = true)
  /\ (signal daily = HOLD -> signal combined = HOLD).
Proof.
  cbv zeta.
  pose proof (generateSignal_signal_strength dataDaily "daily") as Hd.
  pose proof (generateSignal_signal_strength data15m "15min") as Hi.
  unfold combineSignals, dailyWeight, intradayWeight. cbn [signal strength].
  split; [|split].
  - intros Hn Hh. rewrite Hh.
    destruct Hi as [[_ ->]|[Hc _]]; [|congruence].
    destruct Hd as [[Hc _]|[_ Hs]]; [congruence|].
    split; [destruct (signal (generateSignal dataDaily "daily"));
            [reflexivity|reflexivity|congruence]|].
    destruct Hs as [-> | [-> | ->]]; split; auto; vm_compute; reflexivity.
  - intros Hn He. rewrite He.
    destruct Hd as [[Hc _]|[_ Hs]]; [congruence|].
    destruct Hi as [[Hc _]|[_ Hs']]; [congruence|].
    split; [now destruct (signal (generateSignal dataDaily "daily"))|].
    destruct Hs as [-> | [-> | ->]], Hs' as [-> | [-> | ->]];
      vm_compute; reflexivity.
  - intros ->. now destruct (signal (generateSignal data15m "15min")).
Qed.

Lemma combined_by_agreement_witness :
  signal (combineSignals (generateSignal risingBars "daily")
                         (generateSignal flatBars "15min"))
  = signal (generateSignal risingBars "daily")
  /\ (strength (combineSignals (generateSignal risingBars "daily")
                               (generateSignal flatBars "15min")) = 64
      \/ strength (combineSignals (generateSignal risingBars "daily")
                                  (generateSignal flatBars "15min")) = 70
      \/ strength (combineSignals (generateSignal risingBars "daily")
                                  (generateSignal flatBars "15min")) = 76)
  /\ gt (strength (combineSignals (generateSignal risingBars "daily")
                                  (generateSignal flatBars "15min"))) 80
     = false.
Proof.
  apply (proj1 (combined_by_agreement flatBars risingBars)).
  - vm_compute. discriminate.
  - vm_compute. reflexivity.
Defined.

(** ** Lower bounds on binary64 rounding *)

Section Binary64Lower.

Local Open Scope Q_scope.

Lemma pow2_le_val (m e k : Z) :
  (e <= k)%Z -> 2 ^ k <= inject_Z m * 2 ^ e -> (2 ^ (k - e) <= m)%Z.
Proof.
  intros He H. rewrite (Zle_Qle (2 ^ (k - e)) m), (pow2_inject (k - e)) by lia.
  apply (Qmult_le_r _ _ (2 ^ e)); [apply pow2_pos|].
  rewrite <- (pow2_add (k - e) e). now replace (k - e + e)%Z with k by lia.
Qed.

Lemma pow2_div_lower (m j n : Z) :
  (0 <= j)%Z -> (0 <= n)%Z -> (2 ^ (j + n) <= m)%Z -> (2 ^ j <= m / 2 ^ n)%Z.
Proof.
  intros Hj Hn H. apply Z.div_le_lower_bound; [apply Z.pow_pos_nonneg; lia|].
  now rewrite <- Z.pow_add_r, Z.add_comm by lia.
Qed.

(** Shifting a mantissa to its format exponent keeps the value above any
    power of two (of the normal or subnormal range) it was above. *)
Lemma shr_fexp_lower (m e k : Z) (l : location) :
  (0 <= m)%Z -> (-1074 <= k)%Z -> 2 ^ k <= inject_Z m * 2 ^ e ->
  2 ^ k <= inject_Z (shr_m (fst (shr_fexp prec emax m e l)))
           * 2 ^ snd (shr_fexp prec emax m e l).
Proof.
  intros Hm Hk H.
  destruct m as [|p|p]; [|clear Hm|lia].
  { pose proof (pow2_pos k). change (inject_Z 0) with 0 in H. lra. }
  unfold shr_fexp, shr. cbn [Zdigits2]. rewrite fexp_eq.
  pose proof (digits2_pos_bounds p) as [D _].
  set (d := Zpos (digits2_pos p)) in *.
  destruct (Z.max (d + e - 53) (-1074) - e)%Z as [|n|n] eqn:En;
    cbn [fst snd]; try (now rewrite shr_record_of_loc_m).
  destruct (iter_pos_shr_m n (shr_record_of_loc (Zpos p) l)) as [_ E];
    [now rewrite shr_record_of_loc_m|].
  rewrite E, shr_record_of_loc_m.
  destruct (Z.le_gt_cases (e + Zpos n) k) as [Hle|Hgt].
  - assert (Hz : (2 ^ (k - (e + Zpos n)) <= Zpos p / 2 ^ Zpos n)%Z).
    { apply pow2_div_lower; [lia|lia|].
      replace (k - (e + Zpos n) + Zpos n)%Z with (k - e)%Z by lia.
      apply pow2_le_val; [lia|assumption]. }
    rewrite Zle_Qle, pow2_inject in Hz by lia.
    replace k with ((k - (e + Zpos n)) + (e + Zpos n))%Z at 1 by lia.
    rewrite pow2_add. apply Qmult_le_compat_r; [assumption|].
    apply Qlt_le_weak, pow2_pos.
  - assert (Hz : (2 ^ 52 <= Zpos p / 2 ^ Zpos n)%Z).
    { apply pow2_div_lower; [lia|lia|].
      eapply Z.le_trans; [|exact D]. apply Z.pow_le_mono_r; lia. }
    rewrite Zle_Qle in Hz.
    apply Qle_trans with (1 * 2 ^ (e + Zpos n)).
    + rewrite Qmult_1_l. apply pow2_le. lia.
    + apply Qmult_le_compat_r; [|apply Qlt_le_weak, pow2_pos].
      eapply Qle_trans; [|exact Hz]. vm_compute. discriminate.
Qed.

(** Rounding a positive value that is at least [2 ^ k] gives a finite
    number that is at least [2 ^ k], or an infinity, with the given sign. *)
Lemma binary_round_aux_lower (s : bool) (mx ex k : Z) (l : location) :
  (0 <= mx)%Z -> (-1074 <= k)%Z -> 2 ^ k <= inject_Z mx * 2 ^ ex ->
  match binary_round_aux prec emax s mx ex l with
  | S754_finite s' m e => s' = s /\ 2 ^ k <= SFval m e
  | S754_infinity s' => s' = s
  | _ => False
  end.
Proof.
  intros Hm Hk H. unfold binary_round_aux.
  pose proof (shr_fexp_spec mx ex l Hm) as (H1 & _ & _).
  pose proof (shr_fexp_lower mx ex k l Hm Hk H) as L1.
  destruct (shr_fexp prec emax mx ex l) as [r1 e1]. cbn [fst snd] in H1, L1.
  pose proof (round_nearest_even_bounds (shr_m r1) (loc_of_shr_record r1)) as B2.
  set (m2 := round_nearest_even (shr_m r1) (loc_of_shr_record r1)) in *.
  assert (L2 : 2 ^ k <= inject_Z m2 * 2 ^ e1).
  { eapply Qle_trans; [exact L1|].
    apply Qmult_le_compat_r; [|apply Qlt_le_weak, pow2_pos].
    rewrite <- Zle_Qle. lia. }
  pose proof (shr_fexp_lower m2 e1 k loc_Exact ltac:(lia) Hk L2) as L3.
  destruct (shr_fexp prec emax m2 e1 loc_Exact) as [r3 e3]. cbn [fst snd] in L3.
  pose proof (pow2_pos k) as Pk. pose proof (pow2_pos e3) as P3.
  destruct (shr_m r3) as [|m|m].
  - change (inject_Z 0) with 0 in L3. lra.
  - destruct (e3 <=? emax - prec)%Z; [now split|reflexivity].
  - assert (Hneg : inject_Z (Zneg m) * 2 ^ e3 <= 0 * 2 ^ e3).
    { apply Qmult_le_compat_r; [|lra]. change 0 with (inject_Z 0).
      rewrite <- (Zle_Qle (Zneg m) 0). lia. }
    lra.
Qed.

(** A count between 1 and [2 ^ 63], as a JavaScript number, is a positive
    finite number that is at least 1. *)
Lemma of_nat_finite (n : nat) :
  (1 <= n)%nat -> (Z.of_nat n < 2 ^ 63)%Z ->
  exists m e, Prim2SF (of_nat n) = S754_finite false m e /\ 1 <= SFval m e.
Proof.
  intros H1 H2. unfold of_nat.
  rewrite of_uint63_spec, Uint63.of_Z_spec.
  rewrite Z.mod_small by (change Uint63.wB with (2 ^ 63)%Z; lia).
  destruct (Z.of_nat n) as [|p|p] eqn:En; [lia| |lia].
  cbn [binary_normalize]. unfold binary_round.
  destruct (shl_align_val p 0 (fexp prec emax (Zpos (digits2_pos p) + 0)))
    as (V & Le & _).
  destruct (shl_align p 0 (fexp prec emax (Zpos (digits2_pos p) + 0)))
    as [mz ez]. cbn [fst snd] in V, Le.
  assert (Vp : SFval p 0 == inject_Z (Zpos p)).
  { unfold SFval. change (2 ^ 0) with 1. ring. }
  assert (Hlo : 2 ^ 0 <= inject_Z (Zpos mz) * 2 ^ ez).
  { fold (SFval mz ez). rewrite V, Vp. change (2 ^ 0) with (inject_Z 1).
    rewrite <- Zle_Qle. lia. }
  assert (Hhi : SFval mz ez <= 2 ^ 63).
  { rewrite V, Vp, <- (pow2_inject 63) by lia. rewrite <- Zle_Qle. lia. }
  pose proof (binary_round_aux_lower false (Zpos mz) ez 0 loc_Exact
                ltac:(lia) ltac:(lia) Hlo) as Lo.
  pose proof (binary_round_aux_upper mz ez 63
                ltac:(lia) ltac:(lia) ltac:(lia) Hhi) as Up.
  destruct (binary_round_aux prec emax false (Zpos mz) ez loc_Exact)
    as [s|s| |s m e]; try contradiction.
  destruct Lo as [-> Lo]. exists m, e. split; [reflexivity|].
  now change (2 ^ 0) with 1 in Lo.
Qed.

(** Zero divided by such a count is zero. *)
Lemma zero_div_of_nat (n : nat) :
  (1 <= n)%nat -> (Z.of_nat n < 2 ^ 63)%Z -> (0 / of_nat n)%float = 0%float.
Proof.
  intros H1 H2. destruct (of_nat_finite n H1 H2) as (m & e & E & _).
  apply Prim2SF_inj. rewrite div_spec, E. reflexivity.
Qed.

End Binary64Lower.

(** ** Edge cases of the indicators *)

Lemma sum_zeros (l : list float) : sum (map (fun _ => 0) l) = 0.
Proof.
  unfold sum. induction l as [|c l IH]; [reflexivity|].
  cbn [map fold_left]. change (0 + 0) with 0. exact IH.
Qed.

(** X3. When none of the last [period] changes is negative, the RSI is 100:
    the losses sum to zero and the [avgLoss === 0] branch answers, also on a
    flat window whose gains are zero too. *)
Theorem calculateRSI_no_losses (prices : list float) (period : nat) :
  (1 <= period)%nat -> (Z.of_nat period < 2 ^ 63)%Z ->
  (period + 1 <= List.length prices)%nat ->
  (forall c, In c (slice_last period (changes prices)) -> lt c 0 = false) ->
  calculateRSI prices period = 100.
Proof.
  intros H1 H2 Hlen Hc. unfold calculateRSI.
  destruct (Nat.ltb_spec (List.length prices) (period + 1)); [lia|].
  rewrite (map_ext_in (fun c => if lt c 0 then - c else 0) (fun _ => 0))
    by (intros c Hin; now rewrite (Hc c Hin)).
  rewrite sum_zeros, (zero_div_of_nat period H1 H2). reflexivity.
Qed.

Lemma calculateRSI_no_losses_witness :
  calculateRSI [5; 5; 7; 8] 3 = 100.
Proof.
  apply (calculateRSI_no_losses [5; 5; 7; 8] 3); [lia|lia|simpl; lia|].
  intros c [<-|[<-|[<-|[]]]]; reflexivity.
Defined.

Lemma Prim2SF_not_nan (x : float) : is_nan x = false -> Prim2SF x <> S754_nan.
Proof.
  unfold is_nan. rewrite eqb_spec. intros H E. rewrite E in H. discriminate H.
Qed.

Lemma Prim2SF_not_zero (x : float) (s : bool) :
  is_zero x = false -> Prim2SF x <> S754_zero s.
Proof.
  unfold is_zero. rewrite eqb_spec. intros H E. rewrite E in H.
  now destruct s.
Qed.

(** X4. A reference close of zero is not an error: the momentum is then
    [Infinity] or [-Infinity] when the latest close is a number other than
    zero, and [NaN] when the latest close is zero or [NaN]. *)
Theorem calculateMomentum_zero_reference
    (prices : list float) (period : nat) (latest past : float) :
  (1 <= period)%nat -> (period <= List.length prices)%nat ->
  stepsBack prices 0 = Some latest ->
  stepsBack prices (Z.of_nat period - 1) = Some past ->
  is_zero past = true ->
  (is_nan latest || is_zero latest = false ->
   calculateMomentum prices period = infinity
   \/ calculateMomentum prices period = neg_infinity)
  /\ (is_nan latest || is_zero latest = true ->
      calculateMomentum prices period = nan).
Proof.
  intros Hp Hlen Hl Hq Hz. unfold calculateMomentum, stepsBack in *.
  destruct (Nat.ltb_spec (List.length prices) period); [lia|].
  replace (len prices - 1 - 0)%Z with (len prices - 1)%Z in Hl by lia.
  replace (len prices - 1 - (Z.of_nat period - 1))%Z
    with (len prices - Z.of_nat period)%Z in Hq by lia.
  rewrite Hl, Hq. cbn [toNumber].
  destruct (is_zero_spec past Hz) as [sp Ep].
  assert (E : Prim2SF ((latest - past) / past * 100)
              = SF64mul (SF64div (SF64sub (Prim2SF latest) (S754_zero sp))
                                 (S754_zero sp))
                        (S754_finite false 7036874417766400 (-46)))
    by now rewrite mul_spec, div_spec, sub_spec, Ep.
  split; intros Hcase.
  - apply orb_false_elim in Hcase as [Hn Hz'].
    pose proof (Prim2SF_not_nan latest Hn) as Nn.
    assert (Hinf : exists s, Prim2SF ((latest - past) / past * 100)
                             = S754_infinity s).
    { rewrite E.
      destruct (Prim2SF latest) as [s|s| |s m e] eqn:EL.
      - now apply Prim2SF_not_zero with (s := s) in Hz'.
      - eexists; reflexivity.
      - congruence.
      - eexists; reflexivity. }
    destruct Hinf as [[|] Hinf]; [right|left]; apply Prim2SF_inj;
      rewrite Hinf; reflexivity.
  - apply Prim2SF_inj. rewrite E. change (Prim2SF nan) with S754_nan.
    apply orb_true_elim in Hcase as [Hn|Hz'].
    + apply is_nan_eq in Hn. subst latest.
      change (Prim2SF nan) with S754_nan. reflexivity.
    + destruct (is_zero_spec latest Hz') as [sl ->].
      now destruct sl, sp.
Qed.

Lemma calculateMomentum_zero_reference_witness :
  (calculateMomentum [0; 3; 5] 3 = infinity
   \/ calculateMomentum [0; 3; 5] 3 = neg_infinity)
  /\ calculateMomentum [0; 3; 0] 3 = nan.
Proof.
  split.
  - apply (proj1 (calculateMomentum_zero_reference [0; 3; 5] 3 5 0
                    ltac:(lia) ltac:(simpl; lia) eq_refl eq_refl eq_refl)).
    reflexivity.
  - apply (proj2 (calculateMomentum_zero_reference [0; 3; 0] 3 0 0
                    ltac:(lia) ltac:(simpl; lia) eq_refl eq_refl eq_refl)).
    reflexivity.
Defined.



(** ** The range of the RSI *)

Section RSIRange.

Local Open Scope Q_scope.































End RSIRange.




